(** * Foodgram backend: a shallow embedding of the recipe, shopping-list,
    membership, follow, recipe-write and short-code logic, and proofs of its
    specification.

    The relational store is modelled as a record of tables (lists of rows).
    Query results keep the order in which the rows are listed. *)

From Stdlib Require Import String Ascii List Strings.Byte NArith Arith Lia Bool.
From Stdlib Require Import ZArith.
Import ListNotations.

(* ------------------------------------------------------------------------- *)
(** ** Data model (recipes/models.py, users/models.py) *)

Record Tag := mkTag { tag_id : nat; tag_name : string; slug : string }.

Record Ingredient := mkIngredient {
  ingredient_id : nat;
  ingredient_name : string;
  measurement_unit : string
}.

Record Recipe := mkRecipe {
  recipe_id : nat;
  author : nat;
  recipe_name : string;
  cooking_time : nat;
  short_code : string
}.

(** RecipeIngredient: the join row with its quantity. *)
Record RecipeIngredient := mkRecipeIngredient {
  ri_recipe : nat;
  ri_ingredient : nat;
  amount : nat
}.

(** Favorite and ShoppingCart rows share the shape (user, recipe). *)
Record UserRecipe := mkUserRecipe { ur_user : nat; ur_recipe : nat }.

(** Follow: directed edge user -> author. *)
Record Follow := mkFollow { follow_user : nat; follow_author : nat }.

Record DB := mkDB {
  users : list nat;
  tags : list Tag;
  ingredients : list Ingredient;
  recipes : list Recipe;
  recipe_tags : list (nat * nat);             (* Recipe.tags: (recipe, tag) *)
  recipe_ingredients : list RecipeIngredient;
  favorites : list UserRecipe;
  shopping_cart : list UserRecipe;
  follows : list Follow
}.

(** An HTTP response: status code and body. *)
Record Response := mkResponse {
  status : nat;
  content_type : string;
  content_disposition : string;
  body : string
}.

(* ------------------------------------------------------------------------- *)
(** ** Python string helpers *)

(** [str(n)] for a non-negative int. *)
Fixpoint digits_aux (fuel n : nat) (acc : string) : string :=
  match fuel with
  | 0 => acc
  | S f =>
      let acc' := String (ascii_of_nat (48 + n mod 10)) acc in
      if n <? 10 then acc' else digits_aux f (n / 10) acc'
  end.

Definition py_str_int (n : nat) : string := digits_aux (S n) n "".

(** [str(x)] for a column that may be SQL NULL (Python [None]). *)
Definition py_str_opt {A} (show : A -> string) (o : option A) : string :=
  match o with Some a => show a | None => "None" end.

Definition newline : string := String (ascii_of_nat 10) "".

(** [sep.join(xs)] *)
Fixpoint py_join (sep : string) (xs : list string) : string :=
  match xs with
  | [] => ""
  | [x] => x
  | x :: xs' => (x ++ sep ++ py_join sep xs')%string
  end.

(* ------------------------------------------------------------------------- *)
(** ** Shopping-list download (recipes/views.py and api/views.py) *)

(** One row of [shopping_cart.values(name, unit)]: the ingredient name, the
    measurement unit and the amount, each possibly NULL. *)
Record ValuesRow := mkValuesRow {
  name_col : option string;
  unit_col : option string;
  amount_col : option nat
}.

Definition row_key (r : ValuesRow) : option string * option string :=
  (name_col r, unit_col r).

Definition opt_string_eqb (a b : option string) : bool :=
  match a, b with
  | Some x, Some y => String.eqb x y
  | None, None => true
  | _, _ => false
  end.

Definition key_eqb (k1 k2 : option string * option string) : bool :=
  opt_string_eqb (fst k1) (fst k2) && opt_string_eqb (snd k1) (snd k2).

Fixpoint find_ingredient (ings : list Ingredient) (id : nat) : option Ingredient :=
  match ings with
  | [] => None
  | i :: is => if ingredient_id i =? id then Some i else find_ingredient is id
  end.

(** The row of the join ShoppingCart -> Recipe -> RecipeIngredient -> Ingredient
    for one RecipeIngredient. *)
Definition ri_row (db : DB) (ri : RecipeIngredient) : ValuesRow :=
  match find_ingredient (ingredients db) (ri_ingredient ri) with
  | Some i => mkValuesRow (Some (ingredient_name i)) (Some (measurement_unit i))
                          (Some (amount ri))
  | None => mkValuesRow None None (Some (amount ri))
  end.

Definition recipe_ris (db : DB) (r : nat) : list RecipeIngredient :=
  filter (fun ri => ri_recipe ri =? r) (recipe_ingredients db).

(** [ShoppingCart.objects.filter(user=user)] *)
Definition user_cart (db : DB) (user : nat) : list UserRecipe :=
  filter (fun sc => ur_user sc =? user) (shopping_cart db).

(** The joined rows of [ShoppingCart.objects.filter(user=user).values(...)].
    The reverse relation [recipe__recipe_ingredients] is a LEFT OUTER JOIN:
    a cart recipe without ingredient rows contributes one all-NULL row. *)
Definition cart_join_rows (db : DB) (user : nat) : list ValuesRow :=
  flat_map (fun sc =>
    match recipe_ris db (ur_recipe sc) with
    | [] => [mkValuesRow None None None]
    | ris => map (ri_row db) ris
    end) (user_cart db user).

(** SQL [SUM]: NULLs are skipped; the sum of no non-NULL value is NULL. *)
Definition sql_sum_add (acc v : option nat) : option nat :=
  match acc, v with
  | None, x => x
  | Some a, None => Some a
  | Some a, Some b => Some (a + b)
  end.

(** [GROUP BY name, unit] with [SUM(amount)]: one output row per key, holding
    the sum; groups are kept in order of first appearance. *)
Fixpoint group_add (gs : list ValuesRow) (r : ValuesRow) : list ValuesRow :=
  match gs with
  | [] => [r]
  | g :: gs' =>
      if key_eqb (row_key g) (row_key r)
      then mkValuesRow (name_col g) (unit_col g)
                       (sql_sum_add (amount_col g) (amount_col r)) :: gs'
      else g :: group_add gs' r
  end.

Definition group_by_sum (rows : list ValuesRow) : list ValuesRow :=
  fold_left group_add rows [].

(** [.values(name, unit).annotate(total_amount=Sum(amount))] *)
Definition shopping_cart_ingredients (db : DB) (user : nat) : list ValuesRow :=
  group_by_sum (cart_join_rows db user).

Definition shopping_list_header : string := ("Список покупок:" ++ newline)%string.

(** [f"{name} ({unit}) — {amount}"] *)
Definition shopping_line (g : ValuesRow) : string :=
  (py_str_opt id (name_col g) ++ " (" ++ py_str_opt id (unit_col g) ++ ") — "
   ++ py_str_opt py_str_int (amount_col g))%string.

Definition dquote : string := String (ascii_of_nat 34) "".

(** [attachment; filename="shopping_list.txt"] *)
Definition attachment_header : string :=
  ("attachment; filename=" ++ dquote ++ "shopping_list.txt" ++ dquote)%string.

(* ------------------------------------------------------------------------- *)
(** ** Requests and the membership tables *)

Inductive Method := GET | POST | PUT | PATCH | DELETE.

(** The two (user, recipe) membership models: Favorite and ShoppingCart. *)
Inductive MembershipModel := FavoriteModel | ShoppingCartModel.

Definition membership_rows (model : MembershipModel) (db : DB) : list UserRecipe :=
  match model with
  | FavoriteModel => favorites db
  | ShoppingCartModel => shopping_cart db
  end.

Definition with_membership_rows (model : MembershipModel) (db : DB)
  (rows : list UserRecipe) : DB :=
  match model with
  | FavoriteModel =>
      mkDB (users db) (tags db) (ingredients db) (recipes db) (recipe_tags db)
           (recipe_ingredients db) rows (shopping_cart db) (follows db)
  | ShoppingCartModel =>
      mkDB (users db) (tags db) (ingredients db) (recipes db) (recipe_tags db)
           (recipe_ingredients db) (favorites db) rows (follows db)
  end.

(** [Recipe.objects.filter(id=pk).exists()], the lookup of [get_object]. *)
Definition recipe_exists (db : DB) (pk : nat) : bool :=
  existsb (fun r => recipe_id r =? pk) (recipes db).

Definition is_member_row (user pk : nat) (ur : UserRecipe) : bool :=
  (ur_user ur =? user) && (ur_recipe ur =? pk).

(** [model.objects.filter(user=user, recipe=recipe).exists()] *)
Definition member_exists (model : MembershipModel) (db : DB) (user pk : nat) : bool :=
  existsb (is_member_row user pk) (membership_rows model db).

(** [model.objects.create(user=user, recipe=recipe)] *)
Definition member_create (model : MembershipModel) (db : DB) (user pk : nat) : DB :=
  with_membership_rows model db (membership_rows model db ++ [mkUserRecipe user pk]).

(** [model.objects.filter(user=user, recipe=recipe).delete()]: the new state
    and the number of deleted rows. *)
Definition member_delete (model : MembershipModel) (db : DB) (user pk : nat) : DB * nat :=
  let rows := membership_rows model db in
  (with_membership_rows model db (filter (fun ur => negb (is_member_row user pk ur)) rows),
   length (filter (is_member_row user pk) rows)).

(* ------------------------------------------------------------------------- *)
(** ** The follow graph *)

(** [User.objects.filter(id=pk).exists()], the lookup of [get_object_or_404]. *)
Definition user_exists (db : DB) (pk : nat) : bool := existsb (Nat.eqb pk) (users db).

Definition with_follows (db : DB) (fs : list Follow) : DB :=
  mkDB (users db) (tags db) (ingredients db) (recipes db) (recipe_tags db)
       (recipe_ingredients db) (favorites db) (shopping_cart db) fs.

Definition is_follow_row (user author : nat) (f : Follow) : bool :=
  (follow_user f =? user) && (follow_author f =? author).

Definition follow_exists (db : DB) (user author : nat) : bool :=
  existsb (is_follow_row user author) (follows db).

(** [Follow.objects.create(user=user, author=author)] *)
Definition follow_create (db : DB) (user author : nat) : DB :=
  with_follows db (follows db ++ [mkFollow user author]).

(** [Follow.objects.get(user=user, author=author).delete()]: the first matching
    row is removed. *)
Fixpoint remove_first_follow (user author : nat) (fs : list Follow) : list Follow :=
  match fs with
  | [] => []
  | f :: fs' => if is_follow_row user author f then fs'
                else f :: remove_first_follow user author fs'
  end.

Definition follow_delete_count (db : DB) (user author : nat) : DB * nat :=
  (with_follows db (filter (fun f => negb (is_follow_row user author f)) (follows db)),
   length (filter (is_follow_row user author) (follows db))).

(* ------------------------------------------------------------------------- *)
(** ** Recipe list filter (recipes/filters.py) *)

(** The query parameters of [RecipeFilter], after form cleaning; an absent
    parameter is [None] (or the empty tag list). *)
Record RecipeQuery := mkRecipeQuery {
  q_author : option nat;
  q_tags : list string;
  q_is_favorited : option string;
  q_is_in_shopping_cart : option string
}.

(** Python truthiness of a string. *)
Definition py_truthy (s : string) : bool := negb (String.eqb s "").

Definition tag_slug_of (db : DB) (tid : nat) : option string :=
  option_map slug (find (fun t => tag_id t =? tid) (tags db)).

Definition recipe_has_tag_slug (db : DB) (slugs : list string) (r : Recipe) : bool :=
  existsb (fun rt =>
    (fst rt =? recipe_id r) &&
    match tag_slug_of db (snd rt) with
    | Some s => existsb (String.eqb s) slugs
    | None => false
    end) (recipe_tags db).

Definition in_membership (rows : list UserRecipe) (user : nat) (r : Recipe) : bool :=
  existsb (is_member_row user (recipe_id r)) rows.

(** [author] is a [ModelChoiceFilter] on the Meta field. *)
Definition filter_author (qs : list Recipe) (value : option nat) : list Recipe :=
  match value with
  | None => qs
  | Some a => filter (fun r => author r =? a) qs
  end.

(** [RecipeFilter.filter_tags]: [tags__slug__in] with [distinct()]. *)
Definition filter_tags (db : DB) (qs : list Recipe) (value : list string) : list Recipe :=
  match value with
  | [] => qs
  | _ => filter (recipe_has_tag_slug db value) qs
  end.

(** [RecipeFilter.filter_is_favorited]; a method filter is not called for an
    empty value. *)
Definition filter_is_favorited (db : DB) (request_user : option nat)
  (qs : list Recipe) (value : option string) : list Recipe :=
  match value, request_user with
  | Some v, Some user =>
      if py_truthy v then filter (in_membership (favorites db) user) qs else qs
  | _, _ => qs
  end.

(** [RecipeFilter.filter_is_in_shopping_cart] *)
Definition filter_is_in_shopping_cart (db : DB) (request_user : option nat)
  (qs : list Recipe) (value : option string) : list Recipe :=
  match value, request_user with
  | Some v, Some user =>
      if py_truthy v then filter (in_membership (shopping_cart db) user) qs else qs
  | _, _ => qs
  end.

(** The form of the filter set: the author must be a user and every tag slug
    one of the choices (the slugs of [Tag.objects.all()]). *)
Definition query_valid (db : DB) (q : RecipeQuery) : bool :=
  match q_author q with Some a => user_exists db a | None => true end
  && forallb (fun s => existsb (fun t => String.eqb (slug t) s) (tags db)) (q_tags q).

(** [FilterSet.qs]: an invalid form is a 400 ([None]); otherwise each filter
    is applied in turn to the queryset. *)
Definition recipe_filter (db : DB) (request_user : option nat) (q : RecipeQuery)
  (qs : list Recipe) : option (list Recipe) :=
  if query_valid db q then
    let qs := filter_author qs (q_author q) in
    let qs := filter_tags db qs (q_tags q) in
    let qs := filter_is_favorited db request_user qs (q_is_favorited q) in
    let qs := filter_is_in_shopping_cart db request_user qs (q_is_in_shopping_cart q) in
    Some qs
  else None.

(** The specification's reading: a recipe is listed when it matches every
    predicate given; the favorited and in-cart predicates only apply to an
    authenticated requester. *)
Definition recipe_matches (db : DB) (request_user : option nat) (q : RecipeQuery)
  (r : Recipe) : bool :=
  match q_author q with Some a => author r =? a | None => true end
  && match q_tags q with [] => true | slugs => recipe_has_tag_slug db slugs r end
  && match q_is_favorited q, request_user with
     | Some v, Some user => negb (py_truthy v) || in_membership (favorites db) user r
     | _, _ => true
     end
  && match q_is_in_shopping_cart q, request_user with
     | Some v, Some user => negb (py_truthy v) || in_membership (shopping_cart db) user r
     | _, _ => true
     end.

Module RecipesViews.
(** recipes/views.py: [RecipeViewSet.download_shopping_cart]; the action is
    gated by [IsAuthenticated] ([None] is an anonymous requester). *)
Definition download_shopping_cart (db : DB) (request_user : option nat) : Response :=
  match request_user with
  | None => mkResponse 401 "application/json" "" ""
  | Some user =>
      let ingredients := shopping_cart_ingredients db user in
      let shopping_list := shopping_list_header :: map shopping_line ingredients in
      mkResponse 200 "text/plain" attachment_header (py_join newline shopping_list)
  end.

(** [RecipeViewSet._add_remove_relation] behind the [favorite] and
    [shopping_cart] actions ([IsAuthenticated]; [get_object] answers 404 for an
    unknown recipe). Returns the status code and the new state. *)
Definition add_remove_relation (model : MembershipModel) (request_user : option nat)
  (method : Method) (pk : nat) (db : DB) : nat * DB :=
  match request_user with
  | None => (401, db)
  | Some user =>
      if negb (recipe_exists db pk) then (404, db) else
      match method with
      | POST =>
          if member_exists model db user pk then (400, db)
          else (201, member_create model db user pk)
      | DELETE =>
          if negb (member_exists model db user pk) then (400, db)
          else (204, fst (member_delete model db user pk))
      | _ => (405, db)
      end
  end.
End RecipesViews.

Module ApiViews.
(** api/views.py: [RecipeViewSet.download_shopping_cart]. *)
Definition download_shopping_cart (db : DB) (request_user : option nat) : Response :=
  match request_user with
  | None => mkResponse 401 "application/json" "" ""
  | Some user =>
      let ingredients :=
        group_by_sum
          (flat_map (fun sc =>
             match filter (fun ri => ri_recipe ri =? ur_recipe sc)
                          (recipe_ingredients db) with
             | [] => [mkValuesRow None None None]
             | ris => map (ri_row db) ris
             end)
           (filter (fun sc => ur_user sc =? user) (shopping_cart db))) in
      let shopping_list := shopping_list_header :: map shopping_line ingredients in
      mkResponse 200 "text/plain" attachment_header (py_join newline shopping_list)
  end.

(** [RecipeViewSet._add_relation]: the [FavoriteSerializer] or
    [ShoppingCartSerializer] validates the pair (its [validate] and the unique
    constraint both reject a pair already present), then saves it. *)
Definition add_relation (model : MembershipModel) (request_user : option nat)
  (pk : nat) (db : DB) : nat * DB :=
  match request_user with
  | None => (401, db)
  | Some user =>
      if negb (recipe_exists db pk) then (404, db)
      else if member_exists model db user pk then (400, db)
      else (201, member_create model db user pk)
  end.

(** [RecipeViewSet._delete_relation]. *)
Definition delete_relation (model : MembershipModel) (request_user : option nat)
  (pk : nat) (db : DB) : nat * DB :=
  match request_user with
  | None => (401, db)
  | Some user =>
      if negb (recipe_exists db pk) then (404, db) else
      let (db', deleted_count) := member_delete model db user pk in
      if deleted_count =? 0 then (400, db') else (204, db')
  end.

(** [UserViewSet.subscribe] (POST, through [FollowCreateSerializer]) and
    [UserViewSet.unsubscribe] (DELETE). *)
Definition subscribe (request_user : option nat) (method : Method) (pk : nat) (db : DB)
  : nat * DB :=
  match request_user with
  | None => (401, db)
  | Some user =>
      if negb (user_exists db pk) then (404, db) else
      match method with
      | POST =>
          if user =? pk then (400, db)
          else if follow_exists db user pk then (400, db)
          else (201, follow_create db user pk)
      | DELETE =>
          let (db', deleted_count) := follow_delete_count db user pk in
          if deleted_count =? 0 then (400, db') else (204, db')
      | _ => (405, db)
      end
  end.
End ApiViews.

Module UsersViews.
(** users/views.py: [UserViewSet.subscribe] for POST and DELETE
    ([IsAuthenticated]; [get_object_or_404] answers 404 for an unknown author). *)
Definition subscribe (request_user : option nat) (method : Method) (pk : nat) (db : DB)
  : nat * DB :=
  match request_user with
  | None => (401, db)
  | Some user =>
      if negb (user_exists db pk) then (404, db) else
      match method with
      | POST =>
          if user =? pk then (400, db)
          else if follow_exists db user pk then (400, db)
          else (201, follow_create db user pk)
      | DELETE =>
          if negb (follow_exists db user pk) then (400, db)
          else (204, with_follows db (remove_first_follow user pk (follows db)))
      | _ => (405, db)
      end
  end.
End UsersViews.

(** The specification's reading of the shopping list: the cart's recipes, the
    amount a recipe needs of the ingredient (name, unit), and the total. *)
Definition ingredient_has_pair (db : DB) (n m : string) (ri : RecipeIngredient) : bool :=
  match find_ingredient (ingredients db) (ri_ingredient ri) with
  | Some i => String.eqb (ingredient_name i) n && String.eqb (measurement_unit i) m
  | None => false
  end.

Definition cart_recipes (db : DB) (user : nat) : list nat :=
  map ur_recipe (user_cart db user).

Definition recipe_amount (db : DB) (r : nat) (n m : string) : nat :=
  list_sum (map amount (filter (ingredient_has_pair db n m) (recipe_ris db r))).

Definition cart_total (db : DB) (user : nat) (n m : string) : nat :=
  list_sum (map (fun r => recipe_amount db r n m) (cart_recipes db user)).

Definition pair_occurs (db : DB) (user : nat) (n m : string) : Prop :=
  exists r, In r (cart_recipes db user) /\
  exists ri, In ri (recipe_ris db r) /\ ingredient_has_pair db n m ri = true.

(* ------------------------------------------------------------------------- *)
(** ** Recipe write serializer (recipes/serializers.py, RecipeWriteSerializer) *)

(** One entry of the [ingredients] list: [{"id": ..., "amount": ...}]. *)
Record IngredientItem := mkIngredientItem { item_id : nat; item_amount : nat }.

(** The request body of a recipe create or update; an absent key is [None].
    The [image] and [text] fields are not modelled. *)
Record RecipePayload := mkRecipePayload {
  p_ingredients : option (list IngredientItem);
  p_tags : option (list nat);
  p_name : option string;
  p_cooking_time : option nat
}.

(** A DRF validation error: keyed by the field, or a non-field error. *)
Inductive ValidationError :=
| FieldError (field : string) (msg : string)
| NonFieldError (msg : string).

Inductive Validated :=
| Invalid (errors : list ValidationError)
| Valid (data : RecipePayload).

(** [len(ids) != len(set(ids))] *)
Definition has_duplicates (ids : list nat) : bool :=
  negb (length (nodup Nat.eq_dec ids) =? length ids).

Definition ingredient_exists (db : DB) (id : nat) : bool :=
  existsb (fun i => ingredient_id i =? id) (ingredients db).

Definition tag_exists (db : DB) (id : nat) : bool :=
  existsb (fun t => tag_id t =? id) (tags db).

(** The loop of [validate_ingredients] over the items. *)
Fixpoint check_items (db : DB) (items : list IngredientItem) : option string :=
  match items with
  | [] => None
  | it :: rest =>
      if negb (ingredient_exists db (item_id it))
      then Some ("Ингредиент с id " ++ py_str_int (item_id it) ++ " не существует.")%string
      else if item_amount it <? 1
      then Some "Количество ингредиента должно быть не менее 1."%string
      else check_items db rest
  end.

(** [RecipeWriteSerializer.validate_ingredients] *)
Definition validate_ingredients (db : DB) (value : list IngredientItem) : option string :=
  match value with
  | [] => Some "Должен быть хотя бы один ингредиент."%string
  | _ =>
      if has_duplicates (map item_id value)
      then Some "Ингредиенты не должны повторяться."%string
      else check_items db value
  end.

(** [RecipeWriteSerializer.validate_tags] (on the list of Tag objects). *)
Definition validate_tags (value : list nat) : option string :=
  match value with
  | [] => Some "Должен быть хотя бы один тег."%string
  | _ => if has_duplicates value then Some "Теги не должны повторяться."%string else None
  end.

(** [RecipeWriteSerializer.validate_cooking_time] *)
Definition validate_cooking_time (value : nat) : option string :=
  if value <? 1 then Some "Время приготовления должно быть не менее 1 минуты."%string else None.

Definition list_empty_msg : string := "This list may not be empty.".
Definition required_msg : string := "This field is required.".

(** The [ingredients] field: [ListField(child=DictField(), allow_empty=False)],
    then [validate_ingredients]. *)
Definition ingredients_field (db : DB) (value : list IngredientItem) : option string :=
  match value with
  | [] => Some list_empty_msg
  | _ => validate_ingredients db value
  end.

(** The [tags] field: [PrimaryKeyRelatedField(many=True, allow_empty=False)],
    then [validate_tags]. *)
Definition tags_field (db : DB) (value : list nat) : option string :=
  match value with
  | [] => Some list_empty_msg
  | _ =>
      match find (fun pk => negb (tag_exists db pk)) value with
      | Some pk => Some ("Invalid pk " ++ dquote ++ py_str_int pk ++ dquote
                         ++ " - object does not exist.")%string
      | None => validate_tags value
      end
  end.

(** The largest value of a [PositiveSmallIntegerField]; Django adds a
    [MaxValueValidator] for it when the declared maximum is larger. *)
Definition SMALLINT_MAX : nat := 32767.

Section RecipeWrite.
(** The bounds of [Recipe.cooking_time] in foodgram/constants.py. *)
Variables MIN_COOKING_TIME MAX_COOKING_TIME : nat.

(** The [cooking_time] model field: its [MinValueValidator] and
    [MaxValueValidator] become [min_value]/[max_value] of the serializer field,
    then [validate_cooking_time] runs. *)
Definition cooking_time_field (value : nat) : option string :=
  if value <? MIN_COOKING_TIME then Some "min_value"%string
  else if MAX_COOKING_TIME <? value then Some "max_value"%string
  else if SMALLINT_MAX <? value then Some "max_value"%string
  else validate_cooking_time value.

(** One field of [Serializer.to_internal_value]: absent is an error unless the
    update is partial. *)
Definition run_field {A} (partial : bool) (field : string) (value : option A)
  (check : A -> option string) : list ValidationError :=
  match value with
  | None => if partial then [] else [FieldError field required_msg]
  | Some v => match check v with Some msg => [FieldError field msg] | None => [] end
  end.

(** [RecipeWriteSerializer.validate] *)
Definition recipe_write_validate (method : Method) (data : RecipePayload)
  : option ValidationError :=
  match method with
  | PATCH =>
      match p_ingredients data, p_tags data with
      | None, _ => Some (NonFieldError "Поле ingredients обязательно."%string)
      | _, None => Some (NonFieldError "Поле tags обязательно."%string)
      | _, _ => None
      end
  | _ => None
  end.

(** [serializer.is_valid()]: the fields in [Meta.fields] order, then
    [validate] when every field passed. *)
Definition recipe_write_is_valid (db : DB) (method : Method) (partial : bool)
  (data : RecipePayload) : Validated :=
  let errors :=
    run_field partial "ingredients" (p_ingredients data) (ingredients_field db)
    ++ run_field partial "tags" (p_tags data) (tags_field db)
    ++ run_field partial "name" (p_name data) (fun _ => None)
    ++ run_field partial "cooking_time" (p_cooking_time data) cooking_time_field in
  match errors with
  | [] => match recipe_write_validate method data with
          | Some e => Invalid [e]
          | None => Valid data
          end
  | _ => Invalid errors
  end.

End RecipeWrite.

(** [instance.tags.set(tags)]: rows of the recipe that are not in the list are
    removed, the missing ones are added. *)
Definition m2m_set (r : nat) (ts : list nat) (rows : list (nat * nat)) : list (nat * nat) :=
  filter (fun rt => negb (fst rt =? r) || existsb (Nat.eqb (snd rt)) ts) rows
  ++ map (pair r)
       (filter (fun t => negb (existsb (fun rt => (fst rt =? r) && (snd rt =? t)) rows))
               (nodup Nat.eq_dec ts)).

Definition ri_of_item (r : nat) (it : IngredientItem) : RecipeIngredient :=
  mkRecipeIngredient r (item_id it) (item_amount it).

Definition with_recipe_rows (db : DB) (rs : list Recipe) (rts : list (nat * nat))
  (ris : list RecipeIngredient) : DB :=
  mkDB (users db) (tags db) (ingredients db) rs rts ris
       (favorites db) (shopping_cart db) (follows db).

Definition opt_default {A} (d : A) (o : option A) : A :=
  match o with Some a => a | None => d end.

(** [RecipeWriteSerializer.create]: [Recipe.objects.create], [tags.set], then
    one [RecipeIngredient.objects.create] per item. [new_id] is the id the
    database assigns and [code] the short code [Recipe.save] draws. *)
Definition recipe_write_create (db : DB) (user new_id : nat) (code : string)
  (data : RecipePayload) : DB :=
  let recipe := mkRecipe new_id user (opt_default EmptyString (p_name data))
                         (opt_default 0 (p_cooking_time data)) code in
  let rts := m2m_set new_id (opt_default [] (p_tags data)) (recipe_tags db) in
  let ris := recipe_ingredients db
             ++ map (ri_of_item new_id) (opt_default [] (p_ingredients data)) in
  with_recipe_rows db (recipes db ++ [recipe]) rts ris.

(** [setattr] of the validated scalar fields on the instance. *)
Definition update_fields (data : RecipePayload) (r : Recipe) : Recipe :=
  mkRecipe (recipe_id r) (author r) (opt_default (recipe_name r) (p_name data))
           (opt_default (cooking_time r) (p_cooking_time data)) (short_code r).

(** [RecipeWriteSerializer.update] *)
Definition recipe_write_update (db : DB) (pk : nat) (data : RecipePayload) : DB :=
  let rs := map (fun r => if recipe_id r =? pk then update_fields data r else r)
                (recipes db) in
  let rts := match p_tags data with
             | Some ts => m2m_set pk ts (recipe_tags db)
             | None => recipe_tags db
             end in
  let ris := match p_ingredients data with
             | Some items => filter (fun ri => negb (ri_recipe ri =? pk)) (recipe_ingredients db)
                             ++ map (ri_of_item pk) items
             | None => recipe_ingredients db
             end in
  with_recipe_rows db rs rts ris.

Definition find_recipe (db : DB) (pk : nat) : option Recipe :=
  find (fun r => recipe_id r =? pk) (recipes db).

(** recipes/views.py: [RecipeViewSet.create] ([IsAuthenticated], then
    [perform_create] with the requester as author). *)
Definition recipe_create_view (MIN_COOKING_TIME MAX_COOKING_TIME : nat)
  (request_user : option nat) (new_id : nat) (code : string)
  (payload : RecipePayload) (db : DB) : nat * list ValidationError * DB :=
  match request_user with
  | None => (401, [], db)
  | Some user =>
      match recipe_write_is_valid MIN_COOKING_TIME MAX_COOKING_TIME db POST false payload with
      | Invalid errs => (400, errs, db)
      | Valid data => (201, [], recipe_write_create db user new_id code data)
      end
  end.

(** recipes/views.py: [RecipeViewSet.update] for PUT and PATCH (partial). *)
Definition recipe_update_view (MIN_COOKING_TIME MAX_COOKING_TIME : nat)
  (request_user : option nat) (method : Method) (pk : nat)
  (payload : RecipePayload) (db : DB) : nat * list ValidationError * DB :=
  match request_user with
  | None => (401, [], db)
  | Some user =>
      match find_recipe db pk with
      | None => (404, [], db)
      | Some recipe =>
          if negb (author recipe =? user) then (403, [], db) else
          let partial := match method with PATCH => true | _ => false end in
          match recipe_write_is_valid MIN_COOKING_TIME MAX_COOKING_TIME db method partial payload with
          | Invalid errs => (400, errs, db)
          | Valid data => (200, [], recipe_write_update db pk data)
          end
      end
  end.

(** ** Short codes (recipes/models.py, Recipe.save) *)

(** The URL-safe base64 alphabet of [base64.urlsafe_b64encode]. *)
Definition b64url_alphabet : string :=
  "ABCDEFGHIJKLMNOPQRSTUVWXYZabcdefghijklmnopqrstuvwxyz0123456789-_".

(** The character of a 6-bit group. *)
Definition b64_char (v : N) : ascii :=
  match String.get (N.to_nat (N.land v 63)) b64url_alphabet with
  | Some c => c
  | None => "A"%char
  end.

(** [base64.urlsafe_b64encode], with its [=] padding. *)
Fixpoint urlsafe_b64encode (bs : list N) : string :=
  match bs with
  | a :: b :: c :: rest =>
      String (b64_char (N.shiftr a 2))
      (String (b64_char (N.lor (N.shiftl (N.land a 3) 4) (N.shiftr b 4)))
      (String (b64_char (N.lor (N.shiftl (N.land b 15) 2) (N.shiftr c 6)))
      (String (b64_char (N.land c 63)) (urlsafe_b64encode rest))))
  | [a; b] =>
      String (b64_char (N.shiftr a 2))
      (String (b64_char (N.lor (N.shiftl (N.land a 3) 4) (N.shiftr b 4)))
      (String (b64_char (N.shiftl (N.land b 15) 2)) "="))
  | [a] =>
      String (b64_char (N.shiftr a 2))
      (String (b64_char (N.shiftl (N.land a 3) 4)) "==")
  | [] => EmptyString
  end.

(** [str.rstrip("=")] *)
Fixpoint rstrip_pad (s : string) : string :=
  match s with
  | EmptyString => EmptyString
  | String c rest =>
      match rstrip_pad rest with
      | EmptyString => if Ascii.eqb c "="%char then EmptyString else String c EmptyString
      | r => String c r
      end
  end.

(** [secrets.token_urlsafe(nbytes)] on the bytes [token_bytes(nbytes)] drew. *)
Definition token_urlsafe (bs : list Byte.byte) : string :=
  rstrip_pad (urlsafe_b64encode (map Byte.to_N bs)).

(** The four random bytes of one [token_urlsafe(4)] call. *)
Definition Draw : Type := (Byte.byte * Byte.byte * Byte.byte * Byte.byte)%type.

Definition draw_bytes (d : Draw) : list Byte.byte :=
  let '(a, b, c, e) := d in [a; b; c; e].

(** [secrets.token_urlsafe(4)[:6]] *)
Definition new_code (d : Draw) : string := substring 0 6 (token_urlsafe (draw_bytes d)).

(** [Recipe.objects.filter(short_code=code).exists()] *)
Definition code_taken (db : DB) (code : string) : bool :=
  existsb (fun r => String.eqb (short_code r) code) (recipes db).

(** The [while True] loop of [Recipe.save]: the [k]-th call of
    [token_urlsafe] yields [draws k]. The loop has no bound of its own; [fuel]
    only bounds how many draws are looked at, and [None] means the loop is
    still running after them. The result is the draw index and the code. *)
Fixpoint save_loop (db : DB) (draws : nat -> Draw) (k fuel : nat) : option (nat * string) :=
  match fuel with
  | 0 => None
  | S fuel' =>
      let code := new_code (draws k) in
      if code_taken db code then save_loop db draws (S k) fuel' else Some (k, code)
  end.

Definition set_short_code (r : Recipe) (code : string) : Recipe :=
  mkRecipe (recipe_id r) (author r) (recipe_name r) (cooking_time r) code.

Definition with_recipes (db : DB) (rs : list Recipe) : DB :=
  with_recipe_rows db rs (recipe_tags db) (recipe_ingredients db).

Inductive SaveResult :=
| Saved (r : Recipe) (db : DB)
| IntegrityError            (* the [unique=True] constraint of [short_code] *)
| StillDrawing.             (* the loop has not stopped within the fuel *)

(** [Model.save]: an UPDATE of the row with the instance's id when there is
    one, an INSERT otherwise; the unique index on [short_code] refuses a
    row whose code another recipe already has. *)
Definition super_save (db : DB) (r : Recipe) : SaveResult :=
  if existsb (fun x => negb (recipe_id x =? recipe_id r) && String.eqb (short_code x) (short_code r))
             (recipes db)
  then IntegrityError
  else if existsb (fun x => recipe_id x =? recipe_id r) (recipes db)
  then Saved r (with_recipes db (map (fun x => if recipe_id x =? recipe_id r then r else x)
                                     (recipes db)))
  else Saved r (with_recipes db (recipes db ++ [r])).

(** [Recipe.save] *)
Definition recipe_save (db : DB) (draws : nat -> Draw) (fuel : nat) (r : Recipe) : SaveResult :=
  match short_code r with
  | EmptyString =>
      match save_loop db draws 0 fuel with
      | Some (_, code) => super_save db (set_short_code r code)
      | None => StillDrawing
      end
  | _ => super_save db r
  end.

(** The invariant of the recipe table: ids and short codes are unique and no
    code is empty. *)
Definition codes_ok (db : DB) : Prop :=
  Forall (fun r => short_code r <> EmptyString) (recipes db)
  /\ NoDup (map recipe_id (recipes db)) /\ NoDup (map short_code (recipes db)).

(** Every byte, and every four-byte draw. *)
Definition all_bytes : list Byte.byte :=
  flat_map (fun n => match Byte.of_nat n with Some b => [b] | None => [] end) (seq 0 256).

Definition all_draws : list Draw :=
  flat_map (fun a => flat_map (fun b => flat_map (fun c => map (fun e => (a, b, c, e))
            all_bytes) all_bytes) all_bytes) all_bytes.

(** A recipe table holding every code a draw can yield (one recipe each). *)
Definition all_drawable_codes_db : DB :=
  with_recipes (mkDB [1] [] [] [] [] [] [] [] [])
    (map (fun '(n, d) => mkRecipe n 1 "Рецепт" 10 (new_code d))
         (combine (seq 1 (length all_draws)) all_draws)).

(** A create request with one ingredient [i] of amount [amt], one tag [t] and
    the cooking time [ct]. *)
Definition sample_payload (i t ct amt : nat) : RecipePayload :=
  mkRecipePayload (Some [mkIngredientItem i amt]) (Some [t]) (Some "Борщ"%string) (Some ct).

(** A small database: user 1, tags 1 and 2, ingredients 1 and 2, and the
    recipe 5 of user 1 with tag 2 and 7 g of ingredient 2. *)
Definition sample_db : DB :=
  mkDB [1] [mkTag 1 "Завтрак" "breakfast"; mkTag 2 "Обед" "lunch"]
       [mkIngredient 1 "соль" "г"; mkIngredient 2 "сахар" "г"]
       [mkRecipe 5 1 "Суп" 10 "abcdef"] [(5, 2)] [mkRecipeIngredient 5 2 7] [] [] [].

(* ------------------------------------------------------------------------- *)
(** ** Recipe deletion (recipes/views.py, RecipeViewSet.destroy) *)

(** [recipe.delete()]: the recipe row and, through [on_delete=CASCADE], its
    RecipeIngredient, Favorite and ShoppingCart rows and the rows of the
    [Recipe.tags] through table. *)
Definition recipe_delete_cascade (db : DB) (pk : nat) : DB :=
  mkDB (users db) (tags db) (ingredients db)
       (filter (fun r => negb (recipe_id r =? pk)) (recipes db))
       (filter (fun rt => negb (fst rt =? pk)) (recipe_tags db))
       (filter (fun ri => negb (ri_recipe ri =? pk)) (recipe_ingredients db))
       (filter (fun ur => negb (ur_recipe ur =? pk)) (favorites db))
       (filter (fun ur => negb (ur_recipe ur =? pk)) (shopping_cart db))
       (follows db).

(** [RecipeViewSet.destroy] ([IsAuthenticated]; [get_object] answers 404 for
    an unknown recipe; a requester other than the author gets 403; otherwise
    [perform_destroy] and 204). *)
Definition recipe_destroy_view (request_user : option nat) (pk : nat) (db : DB) : nat * DB :=
  match request_user with
  | None => (401, db)
  | Some user =>
      match find_recipe db pk with
      | None => (404, db)
      | Some recipe =>
          if negb (author recipe =? user) then (403, db)
          else (204, recipe_delete_cascade db pk)
      end
  end.

(* ------------------------------------------------------------------------- *)
(** ** Read-side flags (recipes/serializers.py, users/serializers.py) *)

(** [RecipeReadSerializer.get_is_favorited] and [get_is_in_shopping_cart]:
    [obj.favorites.filter(user=request.user).exists()] (resp. [shopping_cart])
    for an authenticated requester, [False] otherwise. *)
Definition get_is_member (model : MembershipModel) (request_user : option nat)
  (db : DB) (obj : nat) : bool :=
  match request_user with
  | Some user => member_exists model db user obj
  | None => false
  end.

Definition get_is_favorited := get_is_member FavoriteModel.
Definition get_is_in_shopping_cart := get_is_member ShoppingCartModel.

(** [UserSerializer.get_is_subscribed] *)
Definition get_is_subscribed (request_user : option nat) (db : DB) (obj : nat) : bool :=
  match request_user with
  | Some user => follow_exists db user obj
  | None => false
  end.

(** The constraints of [Follow.Meta]: [unique_follow] on (user, author) and
    [prevent_self_follow]. *)
Definition follows_ok (db : DB) : Prop :=
  NoDup (follows db) /\ Forall (fun f => follow_user f <> follow_author f) (follows db).

(* ------------------------------------------------------------------------- *)
(** ** Subscriptions (users/serializers.py, FollowSerializer) *)

(** [obj.author.recipes.all()]: the author's recipes in the table's order
    ([Recipe.Meta.ordering] is newest first). *)
Definition author_recipes (db : DB) (a : nat) : list Recipe :=
  filter (fun r => author r =? a) (recipes db).

(** [FollowSerializer.get_recipes_count]: [obj.author.recipes.count()]. *)
Definition get_recipes_count (db : DB) (a : nat) : nat := length (author_recipes db a).

(** [FollowSerializer.get_recipes]: [recipes_limit] is [int(...)] of the query
    parameter ([None] when it is absent, and then the default 3 is used). The
    slice [[:recipes_limit]] of a queryset refuses a negative bound (Django
    raises, [None]). *)
Definition get_recipes (db : DB) (recipes_limit : option Z) (a : nat) : option (list Recipe) :=
  let limit := match recipes_limit with Some n => n | None => 3%Z end in
  if (limit <? 0)%Z then None
  else Some (firstn (Z.to_nat limit) (author_recipes db a)).

(* ------------------------------------------------------------------------- *)
(** ** Base64ImageField.to_internal_value (recipes/serializers.py,
    users/serializers.py) *)






(* ------------------------------------------------------------------------- *)
(** ** The load_ingredients command (recipes/management/commands) *)

Section LoadIngredients.

(** [str.strip] *)
Variable py_strip : string -> string.

Definition is_pair (name unit : string) (i : Ingredient) : bool :=
  String.eqb (ingredient_name i) name && String.eqb (measurement_unit i) unit.

(** [Ingredient.objects.get_or_create(name=name, measurement_unit=unit)]: the
    row with that pair if there is one (the [unique_ingredient] constraint
    allows at most one), otherwise a new row with the next id; the flag is
    [created]. *)
Definition get_or_create_ingredient (ings : list Ingredient) (name unit : string)
  : list Ingredient * bool :=
  if existsb (is_pair name unit) ings then (ings, false)
  else (ings ++ [mkIngredient (S (list_max (map ingredient_id ings))) name unit], true).

Inductive LoadOutcome :=
| Loaded (ings : list Ingredient) (count : nat)
| Crashed (ings : list Ingredient).

(** The loop [for name, unit in reader]: a row of the CSV reader that does not
    have exactly two fields makes the unpacking raise [ValueError]; the rows
    created before it stay in the table (no transaction). *)
Fixpoint load_rows (rows : list (list string)) (ings : list Ingredient) (count : nat)
  : LoadOutcome :=
  match rows with
  | [] => Loaded ings count
  | [name; unit] :: rows' =>
      let (ings', created) := get_or_create_ingredient ings (py_strip name) (py_strip unit) in
      load_rows rows' ings' (if created then S count else count)
  | _ :: _ => Crashed ings
  end.

(** [Command.handle]: the printed line ([None] when the command raises) and
    the new state. [file_exists] is [os.path.exists(csv_file)] and [rows] the
    rows of [csv.reader(file, delimiter=',')]. *)
Definition load_ingredients_handle (file_exists : bool) (rows : list (list string))
  (db : DB) : option string * DB :=
  let with_ings ings :=
    mkDB (users db) (tags db) ings (recipes db) (recipe_tags db)
         (recipe_ingredients db) (favorites db) (shopping_cart db) (follows db) in
  if negb file_exists then (Some "Файл data/ingredients.csv не найден"%string, db) else
  match load_rows rows (ingredients db) 0 with
  | Loaded ings count =>
      (Some ("Загружено " ++ py_str_int count ++ " ингредиентов")%string, with_ings ings)
  | Crashed ings => (None, with_ings ings)
  end.

End LoadIngredients.

(** The [unique_ingredient] constraint on (name, measurement_unit). *)
Definition ingredient_pairs (ings : list Ingredient) : list (string * string) :=
  map (fun i => (ingredient_name i, measurement_unit i)) ings.

(** A CSV row of two fields whose stripped pair is in the table. *)
Definition row_loaded (py_strip : string -> string) (ings : list Ingredient)
  (row : list string) : Prop :=
  exists n u, row = [n; u] /\ In (py_strip n, py_strip u) (ingredient_pairs ings).

(* ------------------------------------------------------------------------- *)
(** ** Registration (users/serializers.py UserCreateSerializer, users/views.py
    UserViewSet.create, Django's UserManager.create_user) *)

(** A row of the users table, with the columns the registration writes. *)
Record Account := mkAccount {
  acc_id : nat;
  acc_email : string;
  acc_username : string;
  acc_first_name : string;
  acc_last_name : string
}.

(** The request body; an absent key is [None]. *)
Record SignupPayload := mkSignupPayload {
  s_email : option string;
  s_username : option string;
  s_password : option string;
  s_first_name : option string;
  s_last_name : option string
}.

(** [len(s)] of a UTF-8 text: its bytes that do not continue a character. *)
Definition py_len (s : string) : nat :=
  length (filter (fun c => negb ((128 <=? nat_of_ascii c) && (nat_of_ascii c <? 192)))
                 (list_ascii_of_string s)).

(** The position of the last ['@'] of [s], from position [i] on. *)
Fixpoint last_at (s : string) (i : nat) (acc : option nat) : option nat :=
  match s with
  | EmptyString => acc
  | String c s' => last_at s' (S i) (if Ascii.eqb c "@"%char then Some i else acc)
  end.

(** [s.rsplit('@', 1)] when it gives two pieces. *)
Definition rsplit_at (s : string) : option (string * string) :=
  match last_at s 0 None with
  | Some i => Some (substring 0 i s, substring (S i) (String.length s) s)
  | None => None
  end.

Definition blank_msg : string := "This field may not be blank.".
Definition unique_msg : string := "This field must be unique.".
Definition invalid_email_msg : string := "Enter a valid email address.".
Definition username_chars_msg : string :=
  "Имя может содержать только буквы, цифры и символы @/./+/-/_".

Definition FORBIDDEN_NAMES : list string := ["me"%string; "admin"%string; "api"%string; "auth"%string].

Section Registration.

(** [str.strip] and [str.lower]. *)
Variable py_strip py_lower : string -> string.
(** Django's [EmailValidator] and [UnicodeUsernameValidator] (a regular
    expression), and [validate_password] with the configured validators (its
    messages). *)
Variable email_valid : string -> bool.
Variable username_valid : string -> bool.
Variable validate_password : string -> list string.
(** [AbstractBaseUser.normalize_username] (NFKC normalisation). *)
Variable normalize_username : string -> string.
Variables MAX_LENGTH_FIRSTNAME MAX_LENGTH_LASTNAME : nat.

(** [MaxLengthValidator] of a [CharField] *)
Definition max_length_errors (m : nat) (value : string) : list string :=
  if m <? py_len value
  then [("Ensure this field has no more than " ++ py_str_int m ++ " characters.")%string]
  else [].

(** [UniqueValidator(queryset=User.objects.all())] on one column: an exact
    comparison. *)
Definition unique_errors (accs : list Account) (col : Account -> string) (value : string)
  : list string :=
  if existsb (fun a => String.eqb (col a) value) accs then [unique_msg] else [].

(** [CharField.run_validation] with [required=True], [allow_blank=False] and
    [trim_whitespace=True]: the stripped value, then every validator in order,
    whose errors are collected. *)
Definition char_field (validators : list (string -> list string)) (v : option string)
  : list string + string :=
  match v with
  | None => inl [required_msg]
  | Some s =>
      let value := py_strip s in
      if String.eqb value EmptyString then inl [blank_msg] else
      match flat_map (fun f => f value) validators with
      | [] => inr value
      | errs => inl errs
      end
  end.

(** [EmailField(max_length=254, validators=[UniqueValidator])] *)
Definition email_field (accs : list Account) (v : option string) : list string + string :=
  char_field [unique_errors accs acc_email; max_length_errors 254;
              fun s => if email_valid s then [] else [invalid_email_msg]] v.

(** [UsernameValidationMixin.validate_username] *)
Definition validate_username (value : string) : list string + string :=
  let value := py_lower (py_strip value) in
  if existsb (String.eqb value) FORBIDDEN_NAMES
  then inl [("Имя " ++ dquote ++ value ++ dquote ++ " запрещено для использования.")%string]
  else if username_valid value then inr value
  else inl [username_chars_msg].

(** [CharField(max_length=150, validators=[UniqueValidator])], then
    [validate_username] on the field's value. *)
Definition username_field (accs : list Account) (v : option string) : list string + string :=
  match char_field [unique_errors accs acc_username; max_length_errors 150] v with
  | inr value => validate_username value
  | inl errs => inl errs
  end.

Definition password_field (v : option string) : list string + string :=
  char_field [validate_password] v.

Definition first_name_field (v : option string) : list string + string :=
  char_field [max_length_errors MAX_LENGTH_FIRSTNAME] v.

Definition last_name_field (v : option string) : list string + string :=
  char_field [max_length_errors MAX_LENGTH_LASTNAME] v.

Definition field_error (name : string) (r : list string + string)
  : list (string * list string) :=
  match r with inl errs => [(name, errs)] | inr _ => [] end.

(** [UserCreateSerializer.is_valid]: the errors by field in the order of
    [Meta.fields], or the validated email, username, password, first and last
    name. *)
Definition user_create_validate (accs : list Account) (p : SignupPayload)
  : list (string * list string) + (string * string * string * string * string) :=
  let e := email_field accs (s_email p) in
  let u := username_field accs (s_username p) in
  let pw := password_field (s_password p) in
  let f := first_name_field (s_first_name p) in
  let l := last_name_field (s_last_name p) in
  match e, u, pw, f, l with
  | inr e, inr u, inr pw, inr f, inr l => inr (e, u, pw, f, l)
  | _, _, _, _, _ =>
      inl (field_error "email" e ++ field_error "username" u ++ field_error "password" pw
           ++ field_error "first_name" f ++ field_error "last_name" l)
  end.

(** [BaseUserManager.normalize_email]: the domain part after the last ['@']
    of the stripped address is lower-cased; an address without ['@'] is
    returned as it is. *)
Definition normalize_email (email : string) : string :=
  match rsplit_at (py_strip email) with
  | Some (name, domain) => (name ++ "@" ++ py_lower domain)%string
  | None => email
  end.

(** [UserManager.create_user] (through [_create_user]) and the INSERT of
    [user.save()]: [None] is the [IntegrityError] of the unique email or
    username column. [new_id] is the id the database assigns. *)
Definition create_user (accs : list Account) (new_id : nat)
  (email username first_name last_name : string) : option (list Account) :=
  let email := normalize_email email in
  let username := normalize_username username in
  if existsb (fun a => String.eqb (acc_email a) email || String.eqb (acc_username a) username) accs
  then None
  else Some (accs ++ [mkAccount new_id email username first_name last_name]).

(** [UserViewSet.create] ([AllowAny]; [CreateModelMixin.create] with
    [UserCreateSerializer]): 400 with the errors, 201, or 500 when the
    INSERT raises. *)
Definition user_create_view (accs : list Account) (new_id : nat) (p : SignupPayload)
  : nat * list (string * list string) * list Account :=
  match user_create_validate accs p with
  | inl errs => (400, errs, accs)
  | inr (e, u, _, f, l) =>
      match create_user accs new_id e u f l with
      | Some accs' => (201, [], accs')
      | None => (500, [], accs)
      end
  end.

End Registration.

(** [str.lower] on ASCII text, used in the registration example. *)
Definition ascii_lower (s : string) : string :=
  string_of_list_ascii
    (map (fun c => let n := nat_of_ascii c in
                   if (65 <=? n) && (n <=? 90) then ascii_of_nat (n + 32) else c)
         (list_ascii_of_string s)).

(** A users table holding [bob], and a sign-up of [Bob]. *)
Definition sample_accounts : list Account :=
  [mkAccount 1 "bob@example.com" "bob" "Bob" "Smith"].

Definition sample_signup : SignupPayload :=
  mkSignupPayload (Some "robert@example.com"%string) (Some "Bob"%string)
                  (Some "s3cret-Pa55"%string) (Some "Robert"%string) (Some "Smith"%string).

(** Users 1, 2 and 3, where 1 follows 2. *)
Definition sample_follow_db : DB :=
  mkDB [1; 2; 3] [] [] [] [] [] [] [] [mkFollow 1 2].

(** Proof-side views of the shopping list. *)

(** The total of the group with key [k], if there is one. *)
Definition lookup_group (k : option string * option string) (gs : list ValuesRow)
  : option (option nat) :=
  match find (fun g => key_eqb (row_key g) k) gs with
  | Some g => Some (amount_col g)
  | None => None
  end.

Definition lookup_step (k : option string * option string)
  (acc : option (option nat)) (r : ValuesRow) : option (option nat) :=
  if key_eqb (row_key r) k
  then Some (sql_sum_add (match acc with Some t => t | None => None end) (amount_col r))
  else acc.

(** The ingredient rows of the cart that carry the pair (name, unit). *)
Definition cart_pair_ris (db : DB) (user : nat) (n m : string) : list RecipeIngredient :=
  flat_map (fun sc => filter (ingredient_has_pair db n m) (recipe_ris db (ur_recipe sc)))
           (user_cart db user).

(* ========================================================================= *)
(** * Proofs *)

(* ------------------------------------------------------------------------- *)
(** ** GROUP BY / SUM *)

Lemma opt_string_eqb_spec (a b : option string) : opt_string_eqb a b = true <-> a = b.
Proof.
  destruct a as [x|], b as [y|]; simpl; split; intro H; try congruence.
  - apply String.eqb_eq in H; congruence.
  - apply String.eqb_eq; congruence.
Qed.

Lemma key_eqb_spec (k1 k2 : option string * option string) :
  key_eqb k1 k2 = true <-> k1 = k2.
Proof.
  destruct k1 as [a b], k2 as [c d]; unfold key_eqb; simpl.
  rewrite andb_true_iff, !opt_string_eqb_spec; split.
  - intros [-> ->]; reflexivity.
  - intro H; inversion H; auto.
Qed.

Lemma key_eqb_refl (k : option string * option string) : key_eqb k k = true.
Proof. apply key_eqb_spec; reflexivity. Qed.

Lemma key_eqb_sym (k1 k2 : option string * option string) : key_eqb k1 k2 = key_eqb k2 k1.
Proof.
  destruct (key_eqb k1 k2) eqn:E; symmetry.
  - apply key_eqb_spec in E; subst; apply key_eqb_refl.
  - destruct (key_eqb k2 k1) eqn:F; auto.
    apply key_eqb_spec in F; subst; rewrite key_eqb_refl in E; discriminate.
Qed.

Lemma lookup_group_add k gs r :
  lookup_group k (group_add gs r) = lookup_step k (lookup_group k gs) r.
Proof.
  unfold lookup_step, lookup_group.
  induction gs as [|g gs IH]; simpl.
  - destruct (key_eqb (row_key r) k); reflexivity.
  - destruct (key_eqb (row_key g) (row_key r)) eqn:Egr.
    + apply key_eqb_spec in Egr. simpl. unfold row_key at 1; simpl.
      fold (row_key g). rewrite Egr.
      destruct (key_eqb (row_key r) k); reflexivity.
    + simpl. destruct (key_eqb (row_key g) k) eqn:Egk.
      * apply key_eqb_spec in Egk. subst k.
        rewrite key_eqb_sym, Egr. reflexivity.
      * exact IH.
Qed.

Lemma lookup_group_fold k rows gs :
  lookup_group k (fold_left group_add rows gs)
  = fold_left (lookup_step k) rows (lookup_group k gs).
Proof.
  revert gs; induction rows as [|r rows IH]; intro gs; simpl; auto.
  rewrite IH, lookup_group_add; reflexivity.
Qed.

Lemma keys_group_add gs r :
  map row_key (group_add gs r)
  = if existsb (fun g => key_eqb (row_key g) (row_key r)) gs
    then map row_key gs else map row_key gs ++ [row_key r].
Proof.
  induction gs as [|g gs IH]; simpl; auto.
  destruct (key_eqb (row_key g) (row_key r)); simpl; auto.
  rewrite IH. destruct (existsb _ gs); reflexivity.
Qed.

Lemma NoDup_group_add gs r :
  NoDup (map row_key gs) -> NoDup (map row_key (group_add gs r)).
Proof.
  intro H; rewrite keys_group_add.
  destruct (existsb _ gs) eqn:E; auto.
  apply NoDup_app; auto.
  - constructor; auto; constructor.
  - intros k Hk [<-|[]].
    apply in_map_iff in Hk as [g [Hg Hin]].
    assert (existsb (fun g => key_eqb (row_key g) (row_key r)) gs = true) as E'.
    { apply existsb_exists; exists g; split; auto. apply key_eqb_spec; auto. }
    congruence.
Qed.

Lemma NoDup_group_fold rows gs :
  NoDup (map row_key gs) -> NoDup (map row_key (fold_left group_add rows gs)).
Proof.
  revert gs; induction rows; intros gs H; simpl; auto.
  apply IHrows, NoDup_group_add, H.
Qed.

Lemma in_keys_group_add k gs r :
  In k (map row_key (group_add gs r)) <-> In k (map row_key gs) \/ k = row_key r.
Proof.
  rewrite keys_group_add.
  destruct (existsb _ gs) eqn:E.
  - split; auto. intros [H| ->]; auto.
    apply existsb_exists in E as [g [Hg Hk]].
    apply key_eqb_spec in Hk; rewrite <- Hk; apply in_map; auto.
  - rewrite in_app_iff; simpl; split.
    + intros [H|[H|[]]]; auto.
    + intros [H|H]; auto.
Qed.

Lemma in_keys_group_fold k rows gs :
  In k (map row_key (fold_left group_add rows gs))
  <-> In k (map row_key gs) \/ exists r, In r rows /\ row_key r = k.
Proof.
  revert gs; induction rows as [|r rows IH]; intro gs; simpl.
  - split; auto. intros [H|[r [Hr _]]]; [auto | destruct Hr].
  - rewrite IH, in_keys_group_add. split.
    + intros [[H|H]|[r' [Hr' Hk]]]; eauto.
    + intros [H|[r' [[<-|Hr'] Hk]]]; auto.
      right; eauto.
Qed.

(** With distinct keys, a group's total is the one found by its key. *)
Lemma lookup_group_in g gs :
  NoDup (map row_key gs) -> In g gs -> lookup_group (row_key g) gs = Some (amount_col g).
Proof.
  unfold lookup_group; induction gs as [|g' gs IH]; simpl; [intros _ []|].
  intros Hnd Hin; inversion Hnd as [|? ? Hnotin Hnd']; subst.
  destruct Hin as [<-|Hin].
  - rewrite key_eqb_refl; reflexivity.
  - destruct (key_eqb (row_key g') (row_key g)) eqn:E.
    + apply key_eqb_spec in E. exfalso; apply Hnotin; rewrite E; apply in_map; auto.
    + apply IH; auto.
Qed.

(* ------------------------------------------------------------------------- *)
(** ** The shopping-cart query *)

Lemma ri_row_key db n m ri :
  key_eqb (row_key (ri_row db ri)) (Some n, Some m) = ingredient_has_pair db n m ri.
Proof. unfold ri_row, ingredient_has_pair; destruct find_ingredient; reflexivity. Qed.

Lemma ri_row_amount db ri : amount_col (ri_row db ri) = Some (amount ri).
Proof. unfold ri_row; destruct find_ingredient; reflexivity. Qed.

Lemma cart_join_rows_shape db user r :
  In r (cart_join_rows db user) ->
  row_key r = (None, None) \/ exists n m, row_key r = (Some n, Some m).
Proof.
  unfold cart_join_rows; intro H; apply in_flat_map in H as [sc [_ H]].
  destruct (recipe_ris db (ur_recipe sc)) as [|ri ris].
  - destruct H as [<-|[]]; left; reflexivity.
  - apply in_map_iff in H as [ri' [<- _]].
    unfold ri_row; destruct find_ingredient; [right; do 2 eexists; reflexivity | left; reflexivity].
Qed.

Lemma filter_map_ri_row db n m ris :
  filter (fun r => key_eqb (row_key r) (Some n, Some m)) (map (ri_row db) ris)
  = map (ri_row db) (filter (ingredient_has_pair db n m) ris).
Proof.
  induction ris as [|ri ris IH]; simpl; auto.
  rewrite ri_row_key; destruct (ingredient_has_pair db n m ri); simpl; congruence.
Qed.

Lemma cart_rows_filter db user n m :
  filter (fun r => key_eqb (row_key r) (Some n, Some m)) (cart_join_rows db user)
  = map (ri_row db) (cart_pair_ris db user n m).
Proof.
  unfold cart_join_rows, cart_pair_ris.
  induction (user_cart db user) as [|sc cart IH]; cbn [flat_map]; auto.
  rewrite filter_app, map_app, IH; f_equal.
  destruct (recipe_ris db (ur_recipe sc)) as [|ri ris]; [reflexivity|].
  apply filter_map_ri_row.
Qed.

Lemma fold_step_filter k rows acc :
  fold_left (lookup_step k) rows acc
  = fold_left (lookup_step k) (filter (fun r => key_eqb (row_key r) k) rows) acc.
Proof.
  revert acc; induction rows as [|r rows IH]; intro acc; simpl; auto.
  destruct (key_eqb (row_key r) k) eqn:E; simpl; rewrite IH; auto.
  unfold lookup_step at 2; rewrite E; reflexivity.
Qed.

Lemma fold_sum_ri_rows db k ris a :
  (forall ri, In ri ris -> key_eqb (row_key (ri_row db ri)) k = true) ->
  fold_left (lookup_step k) (map (ri_row db) ris) (Some (Some a))
  = Some (Some (a + list_sum (map amount ris))).
Proof.
  revert a; induction ris as [|ri ris IH]; intros a H; simpl.
  - rewrite Nat.add_0_r; reflexivity.
  - unfold lookup_step at 2. rewrite (H ri (or_introl eq_refl)), ri_row_amount; simpl.
    rewrite IH by (intros; apply H; right; auto). f_equal; f_equal; lia.
Qed.

Lemma cart_pair_ris_total db user n m :
  list_sum (map amount (cart_pair_ris db user n m)) = cart_total db user n m.
Proof.
  unfold cart_pair_ris, cart_total, cart_recipes, recipe_amount.
  induction (user_cart db user) as [|sc cart IH]; simpl; auto.
  rewrite map_app, list_sum_app, IH; reflexivity.
Qed.

Lemma cart_pair_ris_has db user n m ri :
  In ri (cart_pair_ris db user n m) -> ingredient_has_pair db n m ri = true.
Proof.
  unfold cart_pair_ris; rewrite in_flat_map; intros [sc [_ H]].
  apply filter_In in H; tauto.
Qed.

Lemma pair_occurs_iff db user n m :
  pair_occurs db user n m <-> exists ri, In ri (cart_pair_ris db user n m).
Proof.
  unfold pair_occurs, cart_pair_ris, cart_recipes; split.
  - intros [r [Hr [ri [Hri Hp]]]]. apply in_map_iff in Hr as [sc [<- Hsc]].
    exists ri; apply in_flat_map; exists sc; split; auto; apply filter_In; auto.
  - intros [ri Hri]; apply in_flat_map in Hri as [sc [Hsc Hri]].
    apply filter_In in Hri as [Hri Hp].
    exists (ur_recipe sc); split; [apply in_map; auto | eauto].
Qed.

(** The total the query reports for the pair (name, unit). *)
Lemma lookup_cart_pair db user n m :
  lookup_group (Some n, Some m) (shopping_cart_ingredients db user)
  = match cart_pair_ris db user n m with
    | [] => None
    | _ => Some (Some (cart_total db user n m))
    end.
Proof.
  unfold shopping_cart_ingredients, group_by_sum.
  rewrite lookup_group_fold, fold_step_filter, cart_rows_filter.
  rewrite <- cart_pair_ris_total.
  pose proof (cart_pair_ris_has db user n m) as Hhas.
  destruct (cart_pair_ris db user n m) as [|ri ris]; simpl; auto.
  unfold lookup_step at 2; rewrite ri_row_key, Hhas by (left; auto).
  rewrite ri_row_amount; simpl.
  apply fold_sum_ri_rows. intros ri' Hri'; rewrite ri_row_key; apply Hhas; right; auto.
Qed.

Lemma in_cart_groups db user k :
  In k (map row_key (shopping_cart_ingredients db user))
  <-> exists r, In r (cart_join_rows db user) /\ row_key r = k.
Proof.
  unfold shopping_cart_ingredients, group_by_sum; rewrite in_keys_group_fold; simpl.
  split; [intros [[]|H]; auto | auto].
Qed.

(** Both views run the same query and print the same lines. *)
Lemma download_views_agree db request_user :
  ApiViews.download_shopping_cart db request_user
  = RecipesViews.download_shopping_cart db request_user.
Proof. destruct request_user; reflexivity. Qed.

(** Two cart recipes that both need salt give one line with the summed amount. *)
Example shopping_list_salt :
  let db := mkDB [1] [] [mkIngredient 7 "salt" "g"; mkIngredient 8 "egg" "pcs"]
              [] [] [mkRecipeIngredient 10 7 5; mkRecipeIngredient 11 7 3;
                     mkRecipeIngredient 11 8 2]
              [] [mkUserRecipe 1 10; mkUserRecipe 1 11; mkUserRecipe 2 11] [] in
  body (RecipesViews.download_shopping_cart db (Some 1))
  = (shopping_list_header ++ newline ++ "salt (g) — 8" ++ newline ++ "egg (pcs) — 2")%string.
Proof. reflexivity. Qed.

(* ------------------------------------------------------------------------- *)
(** ** C1 and C10: the shopping-list download *)

(** C1: for an authenticated user the download lists one line per
    (ingredient name, unit) pair occurring in a recipe of the user's cart, and
    that line's amount is the sum over the cart recipes of each recipe's amount
    of that ingredient. Both views answer the same. The keys of the lines are
    distinct; every line is for an occurring pair, or is the all-NULL group a
    cart recipe without ingredient rows produces. *)
Theorem download_shopping_cart_aggregates (db : DB) (user : nat) :
  let groups := shopping_cart_ingredients db user in
  RecipesViews.download_shopping_cart db (Some user)
    = mkResponse 200 "text/plain" attachment_header
        (py_join newline (shopping_list_header :: map shopping_line groups))
  /\ ApiViews.download_shopping_cart db (Some user)
     = RecipesViews.download_shopping_cart db (Some user)
  /\ NoDup (map row_key groups)
  /\ (forall n m,
        pair_occurs db user n m <-> exists g, In g groups /\ row_key g = (Some n, Some m))
  /\ (forall g n m, In g groups -> row_key g = (Some n, Some m) ->
        amount_col g = Some (cart_total db user n m))
  /\ (forall g, In g groups ->
        row_key g = (None, None) \/ exists n m, row_key g = (Some n, Some m)).
Proof.
  intro groups; refine (conj eq_refl (conj _ (conj _ (conj _ (conj _ _))))).
  - apply download_views_agree.
  - apply NoDup_group_fold; constructor.
  - intros n m; split.
  + intro H. apply pair_occurs_iff in H as [ri Hri].
    assert (In (Some n, Some m) (map row_key groups)) as Hk.
    { apply in_cart_groups. exists (ri_row db ri); split.
      - apply filter_In with (f := fun r => key_eqb (row_key r) (Some n, Some m)).
        rewrite cart_rows_filter; apply in_map; auto.
      - apply key_eqb_spec; rewrite ri_row_key; apply cart_pair_ris_has with user; auto. }
    apply in_map_iff in Hk as [g [Hg Hin]]; eauto.
  + intros [g [Hg Hk]]. apply pair_occurs_iff.
    assert (In (Some n, Some m) (map row_key groups)) as Hin
      by (rewrite <- Hk; apply in_map; auto).
    apply in_cart_groups in Hin as [r [Hr Hkr]].
    assert (In r (map (ri_row db) (cart_pair_ris db user n m))) as Hr'.
    { rewrite <- cart_rows_filter; apply filter_In; split; auto.
      apply key_eqb_spec; auto. }
    apply in_map_iff in Hr' as [ri [_ Hri]]; eauto.
  - intros g n m Hg Hk.
    assert (NoDup (map row_key groups)) as Hnd by (apply NoDup_group_fold; constructor).
    pose proof (lookup_group_in g groups Hnd Hg) as Hl.
    unfold groups in Hl; rewrite Hk, lookup_cart_pair in Hl.
    destruct (cart_pair_ris db user n m); congruence.
  - intros g Hg.
    assert (In (row_key g) (map row_key groups)) as Hin by (apply in_map; auto).
    apply in_cart_groups in Hin as [r [Hr <-]].
    apply cart_join_rows_shape with db user; auto.
Qed.

(** C10: the download of recipes/views.py and the one of api/views.py give the
    same response (status, headers and body) for every database state and
    requester; for a user with an empty cart both answer 200 with the header
    line alone. *)
Theorem download_shopping_cart_views_identical (db : DB) (user : nat) :
  user_cart db user = [] ->
  (forall request_user,
     ApiViews.download_shopping_cart db request_user
     = RecipesViews.download_shopping_cart db request_user)
  /\ RecipesViews.download_shopping_cart db (Some user)
     = mkResponse 200 "text/plain" attachment_header shopping_list_header
  /\ ApiViews.download_shopping_cart db (Some user)
     = mkResponse 200 "text/plain" attachment_header shopping_list_header.
Proof.
  intro Hempty.
  assert (RecipesViews.download_shopping_cart db (Some user)
          = mkResponse 200 "text/plain" attachment_header shopping_list_header) as H.
  { unfold RecipesViews.download_shopping_cart, shopping_cart_ingredients, cart_join_rows.
    rewrite Hempty; reflexivity. }
  refine (conj (download_views_agree db) (conj H _)).
  rewrite download_views_agree; exact H.
Qed.

Lemma download_shopping_cart_views_identical_witness :
  let db := mkDB [1; 2] [] [mkIngredient 7 "salt" "g"] [] []
              [mkRecipeIngredient 10 7 5] [] [mkUserRecipe 2 10] [] in
  user_cart db 1 = [] /\
  RecipesViews.download_shopping_cart db (Some 1)
  = mkResponse 200 "text/plain" attachment_header shopping_list_header.
Proof.
  intro db; split; [reflexivity|].
  apply (download_shopping_cart_views_identical db 1); reflexivity.
Defined.

(* ------------------------------------------------------------------------- *)
(** ** Membership and follow tables *)

Lemma filter_none {A} (f : A -> bool) (l : list A) :
  existsb f l = false -> filter (fun x => negb (f x)) l = l /\ filter f l = [].
Proof.
  induction l as [|x l IH]; simpl; auto.
  intro H; apply orb_false_iff in H as [Hx Hl]; rewrite Hx; simpl.
  destruct (IH Hl) as [-> ->]; auto.
Qed.

Lemma with_membership_rows_same model db :
  with_membership_rows model db (membership_rows model db) = db.
Proof. destruct model, db; reflexivity. Qed.

Lemma membership_rows_with model db rows :
  membership_rows model (with_membership_rows model db rows) = rows.
Proof. destruct model; reflexivity. Qed.

Lemma with_membership_rows_twice model db rows rows' :
  with_membership_rows model (with_membership_rows model db rows) rows'
  = with_membership_rows model db rows'.
Proof. destruct model; reflexivity. Qed.

Lemma recipes_with_membership_rows model db rows :
  recipes (with_membership_rows model db rows) = recipes db.
Proof. destruct model; reflexivity. Qed.

Lemma recipe_exists_member_create model db user pk :
  recipe_exists (member_create model db user pk) pk = recipe_exists db pk.
Proof. unfold recipe_exists, member_create; rewrite recipes_with_membership_rows; auto. Qed.

Lemma member_exists_create model db user pk :
  member_exists model (member_create model db user pk) user pk = true.
Proof.
  unfold member_exists, member_create; rewrite membership_rows_with.
  apply existsb_exists; exists (mkUserRecipe user pk); split.
  - apply in_or_app; right; left; auto.
  - unfold is_member_row; simpl; rewrite !Nat.eqb_refl; auto.
Qed.

Lemma member_delete_absent model db user pk :
  member_exists model db user pk = false -> member_delete model db user pk = (db, 0).
Proof.
  unfold member_exists, member_delete; intro H.
  destruct (filter_none _ _ H) as [-> ->]; rewrite with_membership_rows_same; auto.
Qed.

Lemma member_delete_create model db user pk :
  member_exists model db user pk = false ->
  member_delete model (member_create model db user pk) user pk = (db, 1).
Proof.
  unfold member_exists, member_delete, member_create; intro H.
  rewrite membership_rows_with, with_membership_rows_twice, !filter_app.
  destruct (filter_none _ _ H) as [-> ->].
  unfold is_member_row; simpl; rewrite !Nat.eqb_refl; simpl.
  rewrite app_nil_r, with_membership_rows_same; auto.
Qed.

Lemma with_follows_same db : with_follows db (follows db) = db.
Proof. destruct db; reflexivity. Qed.

Lemma follow_create_count db user author :
  follow_exists db user author = false ->
  length (filter (is_follow_row user author) (follows (follow_create db user author))) = 1.
Proof.
  unfold follow_exists, follow_create; simpl; intro H.
  rewrite filter_app; destruct (filter_none _ _ H) as [_ ->].
  unfold is_follow_row; simpl; rewrite !Nat.eqb_refl; reflexivity.
Qed.

(** C5: for an authenticated user and an existing recipe, in both the
    [favorite] and [shopping_cart] actions (recipes/views.py, and the same
    rules in api/views.py): a POST with the row absent creates it and answers
    201; a POST with the row present answers 400 and changes nothing; a DELETE
    with the row absent answers 400; a DELETE after the successful POST answers
    204 and restores the former state, from which a POST succeeds again. *)
Theorem membership_post_delete (model : MembershipModel) (db : DB) (user pk : nat)
  (Hrecipe : recipe_exists db pk = true) :
  let db1 := member_create model db user pk in
  (member_exists model db user pk = false ->
     RecipesViews.add_remove_relation model (Some user) POST pk db = (201, db1)
     /\ member_exists model db1 user pk = true
     /\ RecipesViews.add_remove_relation model (Some user) POST pk db1 = (400, db1)
     /\ RecipesViews.add_remove_relation model (Some user) DELETE pk db = (400, db)
     /\ RecipesViews.add_remove_relation model (Some user) DELETE pk db1 = (204, db)
     /\ ApiViews.add_relation model (Some user) pk db = (201, db1)
     /\ ApiViews.add_relation model (Some user) pk db1 = (400, db1)
     /\ ApiViews.delete_relation model (Some user) pk db = (400, db)
     /\ ApiViews.delete_relation model (Some user) pk db1 = (204, db))
  /\ (member_exists model db user pk = true ->
        RecipesViews.add_remove_relation model (Some user) POST pk db = (400, db)
        /\ ApiViews.add_relation model (Some user) pk db = (400, db)).
Proof.
  intro db1.
  assert (recipe_exists db1 pk = true) as Hrecipe1
    by (unfold db1; rewrite recipe_exists_member_create; auto).
  pose proof (member_exists_create model db user pk) as Hin1; fold db1 in Hin1.
  split.
  - intro Habs.
    pose proof (member_delete_absent model db user pk Habs) as Hdel0.
    pose proof (member_delete_create model db user pk Habs) as Hdel1; fold db1 in Hdel1.
    unfold RecipesViews.add_remove_relation, ApiViews.add_relation,
      ApiViews.delete_relation.
    rewrite Hrecipe, Hrecipe1, Habs, Hin1, Hdel0, Hdel1; simpl.
    repeat split; auto.
  - intro Hpres.
    unfold RecipesViews.add_remove_relation, ApiViews.add_relation.
    rewrite Hrecipe, Hpres; simpl; auto.
Qed.

Lemma membership_post_delete_witness :
  let db := mkDB [1] [] [] [mkRecipe 5 1 "soup" 10 "abcdef"] [] [] [] [] [] in
  RecipesViews.add_remove_relation FavoriteModel (Some 1) DELETE 5
    (member_create FavoriteModel db 1 5) = (204, db).
Proof.
  intro db.
  assert (H := membership_post_delete FavoriteModel db 1 5 eq_refl).
  destruct H as [H _]. apply H. reflexivity.
Defined.

(** C7: for an authenticated requester and an existing target user, in
    users/views.py (and the same rules in api/views.py): a subscription to
    oneself answers 400, a subscription that already exists answers 400, an
    unsubscribe without the edge answers 400, all three without a change; any
    other subscription answers 201 and adds exactly one edge user -> author. *)
Theorem follow_subscribe_rules (db : DB) (user author : nat)
  (Hauthor : user_exists db author = true) :
  (user = author ->
     UsersViews.subscribe (Some user) POST author db = (400, db)
     /\ ApiViews.subscribe (Some user) POST author db = (400, db))
  /\ (follow_exists db user author = true ->
     UsersViews.subscribe (Some user) POST author db = (400, db)
     /\ ApiViews.subscribe (Some user) POST author db = (400, db))
  /\ (follow_exists db user author = false ->
     UsersViews.subscribe (Some user) DELETE author db = (400, db)
     /\ ApiViews.subscribe (Some user) DELETE author db = (400, db))
  /\ (user <> author -> follow_exists db user author = false ->
     UsersViews.subscribe (Some user) POST author db = (201, follow_create db user author)
     /\ ApiViews.subscribe (Some user) POST author db = (201, follow_create db user author)
     /\ follows (follow_create db user author) = follows db ++ [mkFollow user author]
     /\ length (filter (is_follow_row user author) (follows (follow_create db user author)))
        = 1).
Proof.
  unfold UsersViews.subscribe, ApiViews.subscribe; rewrite Hauthor; simpl.
  split; [|split; [|split]].
  - intros <-; rewrite Nat.eqb_refl; auto.
  - intro H; rewrite H; destruct (user =? author); auto.
  - intro H; rewrite H.
    unfold follow_delete_count, follow_exists in *.
    destruct (filter_none _ _ H) as [-> ->]; rewrite with_follows_same; auto.
  - intros Hne H.
    apply Nat.eqb_neq in Hne; rewrite Hne, H.
    repeat split; auto. apply follow_create_count; auto.
Qed.

Lemma follow_subscribe_rules_witness :
  let db := mkDB [1; 2] [] [] [] [] [] [] [] [] in
  UsersViews.subscribe (Some 1) POST 2 db = (201, follow_create db 1 2).
Proof.
  intro db.
  destruct (follow_subscribe_rules db 1 2 eq_refl) as [_ [_ [_ H]]].
  apply H; [discriminate | reflexivity].
Defined.

(* ------------------------------------------------------------------------- *)
(** ** C9: the recipe filter *)

Lemma filter_filter_andb {A} (f g : A -> bool) (l : list A) :
  filter g (filter f l) = filter (fun x => f x && g x) l.
Proof.
  induction l as [|x l IH]; simpl; auto.
  destruct (f x); simpl; auto. destruct (g x); simpl; congruence.
Qed.

Lemma filter_true_ext {A} (f : A -> bool) (l : list A) :
  (forall x, f x = true) -> filter f l = l.
Proof. intro H; induction l as [|x l IH]; simpl; auto. rewrite H, IH; auto. Qed.

Lemma filter_ext_eq {A} (f g : A -> bool) (l : list A) :
  (forall x, f x = g x) -> filter f l = filter g l.
Proof. intro H; induction l as [|x l IH]; simpl; auto. rewrite H, IH; auto. Qed.

Lemma filter_author_pred qs v :
  filter_author qs v
  = filter (fun r => match v with Some a => author r =? a | None => true end) qs.
Proof. destruct v; simpl; auto. symmetry; apply filter_true_ext; auto. Qed.

Lemma filter_tags_pred db qs v :
  filter_tags db qs v
  = filter (fun r => match v with [] => true | slugs => recipe_has_tag_slug db slugs r end) qs.
Proof. destruct v; simpl; auto. symmetry; apply filter_true_ext; auto. Qed.

Lemma filter_membership_pred (rows : list UserRecipe) (request_user : option nat)
  (qs : list Recipe) (value : option string) :
  match value, request_user with
  | Some v, Some user => if py_truthy v then filter (in_membership rows user) qs else qs
  | _, _ => qs
  end
  = filter (fun r => match value, request_user with
                     | Some v, Some user => negb (py_truthy v) || in_membership rows user r
                     | _, _ => true
                     end) qs.
Proof.
  destruct value as [v|], request_user as [u|];
    try (symmetry; apply filter_true_ext; auto).
  destruct (py_truthy v); simpl; auto. symmetry; apply filter_true_ext; auto.
Qed.

(** C9: a valid recipe-list query keeps exactly the recipes that satisfy the
    author, tags, favorited and in-cart predicates together; for an anonymous
    requester, the is_favorited and is_in_shopping_cart parameters change
    nothing in the result. *)
Theorem recipe_filter_conjunctive (db : DB) (request_user : option nat)
  (q : RecipeQuery) (qs : list Recipe) :
  recipe_filter db request_user q qs
  = (if query_valid db q then Some (filter (recipe_matches db request_user q) qs) else None)
  /\ recipe_filter db None q qs
     = recipe_filter db None (mkRecipeQuery (q_author q) (q_tags q) None None) qs.
Proof.
  split.
  - unfold recipe_filter; destruct (query_valid db q); auto. f_equal.
    unfold filter_is_in_shopping_cart, filter_is_favorited.
    rewrite filter_author_pred, filter_tags_pred, !filter_membership_pred,
      !filter_filter_andb.
    apply filter_ext_eq; intro r; unfold recipe_matches.
    rewrite !andb_assoc; destruct (q_tags q); reflexivity.
  - unfold recipe_filter, query_valid; simpl.
    destruct (_ && _); auto.
    unfold filter_is_in_shopping_cart, filter_is_favorited.
    destruct (q_is_favorited q), (q_is_in_shopping_cart q); reflexivity.
Qed.

(* ------------------------------------------------------------------------- *)
(** ** The recipe write serializer *)

Lemma list_eq_dec_nil {A} (l : list A) : {l = []} + {l <> []}.
Proof. destruct l; [left | right]; congruence. Defined.

Lemma nodup_length_le (l : list nat) : length (nodup Nat.eq_dec l) <= length l.
Proof.
  induction l as [|x l IH]; simpl; auto.
  destruct (in_dec Nat.eq_dec x l); simpl; lia.
Qed.

Lemma has_duplicates_spec (l : list nat) : has_duplicates l = true <-> ~ NoDup l.
Proof.
  unfold has_duplicates; rewrite negb_true_iff, Nat.eqb_neq; split.
  - intros Hlen Hnd; apply Hlen; rewrite nodup_fixed_point; auto.
  - induction l as [|x l IH]; intro Hnd.
    + exfalso; apply Hnd; constructor.
    + simpl; destruct (in_dec Nat.eq_dec x l) as [Hin|Hnin].
      * pose proof (nodup_length_le l); simpl; lia.
      * simpl. assert (~ NoDup l) as Hl by (intro H; apply Hnd; constructor; auto).
        specialize (IH Hl); lia.
Qed.

Lemma check_items_missing db items :
  (exists it, In it items /\ ingredient_exists db (item_id it) = false) ->
  check_items db items <> None.
Proof.
  induction items as [|it items IH]; simpl; [intros [? [[] _]]|].
  intros [it' [[<-|Hin] Hex]].
  - rewrite Hex; simpl; discriminate.
  - destruct (negb (ingredient_exists db (item_id it))); [discriminate|].
    destruct (item_amount it <? 1); [discriminate|]. apply IH; eauto.
Qed.

Lemma ingredients_field_nonempty db ings :
  ings <> [] ->
  ingredients_field db ings
  = if has_duplicates (map item_id ings)
    then Some "Ингредиенты не должны повторяться."%string
    else check_items db ings.
Proof. destruct ings; [congruence | reflexivity]. Qed.

Lemma ingredients_field_rejects db ings :
  ings = [] \/ ~ NoDup (map item_id ings)
  \/ (exists it, In it ings /\ ingredient_exists db (item_id it) = false) ->
  ingredients_field db ings <> None.
Proof.
  intro H; destruct (list_eq_dec_nil ings) as [->|Hne]; [discriminate|].
  rewrite ingredients_field_nonempty by auto.
  destruct (has_duplicates (map item_id ings)) eqn:D; [discriminate|].
  destruct H as [H|[H|H]]; [congruence| |].
  - apply has_duplicates_spec in H; congruence.
  - apply check_items_missing; auto.
Qed.

Lemma tags_field_rejects db ts :
  ts = [] \/ ~ NoDup ts -> tags_field db ts <> None.
Proof.
  intro H; destruct (list_eq_dec_nil ts) as [->|Hne]; [discriminate|].
  assert (tags_field db ts
          = match find (fun pk => negb (tag_exists db pk)) ts with
            | Some pk => Some ("Invalid pk " ++ dquote ++ py_str_int pk ++ dquote
                               ++ " - object does not exist.")%string
            | None => validate_tags ts
            end) as -> by (destruct ts; [congruence | reflexivity]).
  destruct (find _ ts); [discriminate|].
  assert (validate_tags ts
          = if has_duplicates ts then Some "Теги не должны повторяться."%string else None)
    as -> by (destruct ts; [congruence | reflexivity]).
  destruct H as [H|H]; [congruence|].
  apply has_duplicates_spec in H; rewrite H; discriminate.
Qed.

Lemma is_valid_field_error MINc MAXc db method partial data f msg :
  In (FieldError f msg)
     (run_field partial "ingredients" (p_ingredients data) (ingredients_field db)
      ++ run_field partial "tags" (p_tags data) (tags_field db)
      ++ run_field partial "name" (p_name data) (fun _ => None)
      ++ run_field partial "cooking_time" (p_cooking_time data)
           (cooking_time_field MINc MAXc)) ->
  exists errs, recipe_write_is_valid MINc MAXc db method partial data = Invalid errs
               /\ In (FieldError f msg) errs.
Proof.
  unfold recipe_write_is_valid; intro H.
  destruct (_ ++ _) eqn:E; [destruct H|]. eauto.
Qed.

(** A valid result carries the request data, with both lists present when the
    update is full or a PATCH. *)
Lemma is_valid_lists MINc MAXc db method partial payload data :
  (partial = false \/ method = PATCH) ->
  recipe_write_is_valid MINc MAXc db method partial payload = Valid data ->
  data = payload /\ (exists items, p_ingredients payload = Some items)
  /\ (exists ts, p_tags payload = Some ts).
Proof.
  unfold recipe_write_is_valid; intros Hm Hv.
  match type of Hv with
  | context [match ?l with [] => _ | _ :: _ => _ end] => destruct l eqn:E
  end; [|discriminate].
  destruct (recipe_write_validate method payload) eqn:V; [discriminate|].
  injection Hv as <-. split; [reflexivity|].
  destruct Hm as [->| ->].
  - unfold run_field in E.
    destruct (p_ingredients payload) eqn:Ei; [|discriminate].
    destruct (p_tags payload) eqn:Et; [eauto|].
    destruct (ingredients_field db l); discriminate.
  - simpl in V.
    destruct (p_ingredients payload) eqn:Ei; [|discriminate].
    destruct (p_tags payload) eqn:Et; [eauto|discriminate].
Qed.


(** m2m [set] leaves the recipe [r] with exactly the tags [ts] and keeps the
    rows of the other recipes. *)
Lemma m2m_set_spec r ts rows x y :
  In (x, y) (m2m_set r ts rows) <-> (x = r /\ In y ts) \/ (x <> r /\ In (x, y) rows).
Proof.
  unfold m2m_set. rewrite in_app_iff, filter_In, in_map_iff. simpl.
  split.
  - intros [[Hin Hb]|[t' [Heq Ht]]].
    + destruct (Nat.eqb_spec x r) as [->|Hne]; simpl in Hb.
      * left; split; [reflexivity|].
        apply existsb_exists in Hb as [z [Hz Ez]].
        apply Nat.eqb_eq in Ez; subst; auto.
      * right; auto.
    + injection Heq as <- <-. apply filter_In in Ht as [Ht _].
      apply nodup_In in Ht. auto.
  - intros [[-> Hy]|[Hne Hin]].
    + destruct (existsb (fun rt => (fst rt =? r) && (snd rt =? y)) rows) eqn:E.
      * left. apply existsb_exists in E as [[a b] [Hab Eab]]. simpl in Eab.
        apply andb_true_iff in Eab as [E1 E2].
        apply Nat.eqb_eq in E1; apply Nat.eqb_eq in E2; subst a b.
        split; [auto|]. rewrite Nat.eqb_refl; simpl.
        apply existsb_exists; exists y; split; [auto | apply Nat.eqb_refl].
      * right. exists y. split; [reflexivity|].
        apply filter_In; split; [apply nodup_In; auto | rewrite E; reflexivity].
    + left. split; [auto|]. apply Nat.eqb_neq in Hne; rewrite Hne; reflexivity.
Qed.

Lemma filter_neg_filter {A} (f : A -> bool) (l : list A) :
  filter f (filter (fun x => negb (f x)) l) = [].
Proof. induction l as [|x l IH]; simpl; auto. destruct (f x) eqn:E; simpl; rewrite ?E; auto. Qed.

Lemma filter_idem {A} (f : A -> bool) (l : list A) :
  filter f (filter f l) = filter f l.
Proof. induction l as [|x l IH]; simpl; auto. destruct (f x) eqn:E; simpl; rewrite ?E, IH; auto. Qed.

Lemma filter_ri_of_item pk items :
  filter (fun ri => ri_recipe ri =? pk) (map (ri_of_item pk) items) = map (ri_of_item pk) items
  /\ filter (fun ri => negb (ri_recipe ri =? pk)) (map (ri_of_item pk) items) = [].
Proof.
  induction items as [|it items [IH1 IH2]]; simpl; auto.
  rewrite Nat.eqb_refl; simpl; rewrite IH1, IH2; auto.
Qed.

(** A create whose field errors include [FieldError f msg] is answered 400
    with that error, and the database is unchanged. *)
Lemma create_view_field_error MINc MAXc user new_id code payload db f msg :
  In (FieldError f msg)
     (run_field false "ingredients" (p_ingredients payload) (ingredients_field db)
      ++ run_field false "tags" (p_tags payload) (tags_field db)
      ++ run_field false "name" (p_name payload) (fun _ => None)
      ++ run_field false "cooking_time" (p_cooking_time payload)
           (cooking_time_field MINc MAXc)) ->
  exists errs, recipe_create_view MINc MAXc (Some user) new_id code payload db = (400, errs, db)
               /\ In (FieldError f msg) errs.
Proof.
  intro H. destruct (is_valid_field_error MINc MAXc db POST false payload f msg H)
    as [errs [E Hin]].
  unfold recipe_create_view; rewrite E; eauto.
Qed.

(** The request fields of [sample_payload] other than [cooking_time] pass. *)
Lemma sample_payload_valid MINc MAXc db i t ct amt :
  ingredient_exists db i = true -> tag_exists db t = true -> 1 <= amt ->
  recipe_write_is_valid MINc MAXc db POST false (sample_payload i t ct amt)
  = match cooking_time_field MINc MAXc ct with
    | Some m => Invalid [FieldError "cooking_time" m]
    | None => Valid (sample_payload i t ct amt)
    end.
Proof.
  intros Hi Ht Ha. unfold recipe_write_is_valid, sample_payload; simpl.
  unfold ingredients_field, validate_ingredients, check_items, has_duplicates; simpl.
  rewrite Hi, Ht; simpl.
  destruct (amt <? 1) eqn:E; [apply Nat.ltb_lt in E; lia|].
  destruct (cooking_time_field MINc MAXc ct); reflexivity.
Qed.

Lemma cooking_time_field_range MINc MAXc ct :
  1 <= MINc -> MAXc <= SMALLINT_MAX ->
  cooking_time_field MINc MAXc ct = None <-> MINc <= ct <= MAXc.
Proof.
  intros H1 H2. unfold cooking_time_field, validate_cooking_time.
  destruct (ct <? MINc) eqn:E1; [apply Nat.ltb_lt in E1 | apply Nat.ltb_ge in E1].
  { split; [discriminate | lia]. }
  destruct (MAXc <? ct) eqn:E2; [apply Nat.ltb_lt in E2 | apply Nat.ltb_ge in E2].
  { split; [discriminate | lia]. }
  destruct (SMALLINT_MAX <? ct) eqn:E3; [apply Nat.ltb_lt in E3; lia|].
  destruct (ct <? 1) eqn:E4; [apply Nat.ltb_lt in E4; lia|].
  split; [lia | reflexivity].
Qed.

(** The database after a successful update of [pk] with both lists given. *)
Lemma recipe_write_update_lists db pk data items ts :
  p_ingredients data = Some items -> p_tags data = Some ts ->
  let db' := recipe_write_update db pk data in
  filter (fun ri => ri_recipe ri =? pk) (recipe_ingredients db') = map (ri_of_item pk) items
  /\ filter (fun ri => negb (ri_recipe ri =? pk)) (recipe_ingredients db')
     = filter (fun ri => negb (ri_recipe ri =? pk)) (recipe_ingredients db)
  /\ recipe_tags db' = m2m_set pk ts (recipe_tags db).
Proof.
  intros Ei Et; unfold recipe_write_update; simpl; rewrite Ei, Et; simpl.
  destruct (filter_ri_of_item pk items) as [F1 F2].
  rewrite !filter_app, filter_neg_filter, filter_idem, F1, F2, app_nil_r.
  auto.
Qed.

(** C3: a create whose [ingredients] list is empty, repeats an ingredient id or
    names an ingredient that does not exist, or whose [tags] list is empty or
    repeats a tag, is answered 400 with an error under that field, and the
    database (in particular the recipe table) is left unchanged. *)
Theorem recipe_create_rejects_bad_lists MINc MAXc user new_id code payload db :
  ((exists ings, p_ingredients payload = Some ings
     /\ (ings = [] \/ ~ NoDup (map item_id ings)
         \/ exists it, In it ings /\ ingredient_exists db (item_id it) = false)) ->
   exists errs, recipe_create_view MINc MAXc (Some user) new_id code payload db
                = (400, errs, db)
                /\ exists msg, In (FieldError "ingredients" msg) errs)
  /\
  ((exists ts, p_tags payload = Some ts /\ (ts = [] \/ ~ NoDup ts)) ->
   exists errs, recipe_create_view MINc MAXc (Some user) new_id code payload db
                = (400, errs, db)
                /\ exists msg, In (FieldError "tags" msg) errs).
Proof.
  split.
  - intros [ings [Ei Hbad]].
    apply ingredients_field_rejects in Hbad.
    destruct (ingredients_field db ings) as [msg|] eqn:Em; [|congruence].
    destruct (create_view_field_error MINc MAXc user new_id code payload db
                "ingredients" msg) as [errs [E Hin]].
    { apply in_or_app; left. unfold run_field; rewrite Ei, Em; left; reflexivity. }
    eauto.
  - intros [ts [Et Hbad]].
    apply tags_field_rejects with (db := db) in Hbad.
    destruct (tags_field db ts) as [msg|] eqn:Em; [|congruence].
    destruct (create_view_field_error MINc MAXc user new_id code payload db
                "tags" msg) as [errs [E Hin]].
    { apply in_or_app; right; apply in_or_app; left.
      unfold run_field; rewrite Et, Em; left; reflexivity. }
    eauto.
Qed.

(** C4: with bounds [1 <= MIN_COOKING_TIME <= MAX_COOKING_TIME] within the
    small-integer column, a create with otherwise valid data succeeds (201)
    exactly when its cooking time lies in [MIN_COOKING_TIME, MAX_COOKING_TIME],
    so both bounds are accepted; but an ingredient amount of [MAX_AMOUNT + 1]
    is accepted with 201 and stored, because the serializer only checks
    [amount < 1] and [RecipeIngredient.objects.create] runs no validators. *)
Theorem recipe_create_amount_unbounded MINc MAXc MAX_AMOUNT user new_id code db i t :
  1 <= MINc -> MINc <= MAXc -> MAXc <= SMALLINT_MAX -> MAX_AMOUNT < SMALLINT_MAX ->
  ingredient_exists db i = true -> tag_exists db t = true ->
  (forall ct, (exists db', recipe_create_view MINc MAXc (Some user) new_id code
                             (sample_payload i t ct 1) db = (201, [], db'))
              <-> MINc <= ct <= MAXc)
  /\ (forall ct, ct < MINc \/ MAXc < ct ->
        exists errs, recipe_create_view MINc MAXc (Some user) new_id code
                       (sample_payload i t ct 1) db = (400, errs, db))
  /\ exists db', recipe_create_view MINc MAXc (Some user) new_id code
                   (sample_payload i t MINc (MAX_AMOUNT + 1)) db = (201, [], db')
                 /\ In (mkRecipeIngredient new_id i (MAX_AMOUNT + 1)) (recipe_ingredients db').
Proof.
  intros H1 H2 H3 H4 Hi Ht.
  assert (Hview : forall ct amt, 1 <= amt ->
            recipe_create_view MINc MAXc (Some user) new_id code (sample_payload i t ct amt) db
            = match cooking_time_field MINc MAXc ct with
              | Some m => (400, [FieldError "cooking_time" m], db)
              | None => (201, [], recipe_write_create db user new_id code (sample_payload i t ct amt))
              end).
  { intros ct amt Ha. unfold recipe_create_view.
    rewrite (sample_payload_valid MINc MAXc db i t ct amt Hi Ht Ha).
    destruct (cooking_time_field MINc MAXc ct); reflexivity. }
  refine (conj _ (conj _ _)).
  - intro ct. rewrite (Hview ct 1 (le_n 1)), <- (cooking_time_field_range MINc MAXc ct H1 H3).
    destruct (cooking_time_field MINc MAXc ct).
    + split; [intros [db' E]; discriminate | discriminate].
    + split; [reflexivity | intros _; eauto].
  - intros ct Hct. rewrite (Hview ct 1 (le_n 1)).
    destruct (cooking_time_field MINc MAXc ct) eqn:E; [eauto|].
    apply (cooking_time_field_range MINc MAXc ct H1 H3) in E. lia.
  - rewrite Hview by lia.
    assert (E : cooking_time_field MINc MAXc MINc = None)
      by (apply cooking_time_field_range; lia).
    rewrite E. eexists; split; [reflexivity|].
    simpl. apply in_or_app; right; left; reflexivity.
Qed.

(** C6: a successful (200) full or partial update of recipe [pk] came with
    both lists; afterwards the recipe's ingredient rows are exactly the
    supplied items, its tags exactly the supplied tags, and the rows of other
    recipes are unchanged. A PATCH by the author that omits either list is
    answered 400 and changes nothing. *)
Theorem recipe_update_replaces_lists MINc MAXc user method pk payload db st errs db' :
  (method = PUT \/ method = PATCH) ->
  recipe_update_view MINc MAXc (Some user) method pk payload db = (st, errs, db') ->
  (st = 200 ->
   exists items ts, p_ingredients payload = Some items /\ p_tags payload = Some ts
   /\ filter (fun ri => ri_recipe ri =? pk) (recipe_ingredients db') = map (ri_of_item pk) items
   /\ filter (fun ri => negb (ri_recipe ri =? pk)) (recipe_ingredients db')
      = filter (fun ri => negb (ri_recipe ri =? pk)) (recipe_ingredients db)
   /\ (forall tg, In (pk, tg) (recipe_tags db') <-> In tg ts)
   /\ (forall r tg, r <> pk -> (In (r, tg) (recipe_tags db') <-> In (r, tg) (recipe_tags db))))
  /\
  (forall recipe, method = PATCH -> find_recipe db pk = Some recipe -> author recipe = user ->
   (p_ingredients payload = None \/ p_tags payload = None) ->
   st = 400 /\ db' = db).
Proof.
  intros Hm Hv. unfold recipe_update_view in Hv.
  split.
  - intros ->.
    destruct (find_recipe db pk) as [recipe|]; [|discriminate].
    destruct (negb (author recipe =? user)); [discriminate|].
    destruct (recipe_write_is_valid MINc MAXc db method _ payload) as [e|data] eqn:V;
      [discriminate|].
    injection Hv as _ <-.
    destruct (is_valid_lists MINc MAXc db method
                (match method with PATCH => true | _ => false end) payload data
                ltac:(destruct Hm as [-> | ->]; [left | right]; reflexivity) V)
      as [-> [[items Ei] [ts Et]]].
    destruct (recipe_write_update_lists db pk payload items ts Ei Et) as [F1 [F2 F3]].
    exists items, ts. refine (conj Ei (conj Et (conj F1 (conj F2 (conj _ _))))).
    + intro tg. rewrite F3, m2m_set_spec. split.
      * intros [[_ H]|[H _]]; [exact H | congruence].
      * intro H; left; auto.
    + intros r tg Hr. rewrite F3, m2m_set_spec. split.
      * intros [[H _]|[_ H]]; [congruence | exact H].
      * intro H; right; auto.
  - intros recipe -> Ef Ea Hmiss. rewrite Ef, Ea, Nat.eqb_refl in Hv. simpl in Hv.
    destruct (recipe_write_is_valid MINc MAXc db PATCH true payload) as [e|data] eqn:V.
    + injection Hv as <- _ <-; auto.
    + destruct (is_valid_lists MINc MAXc db PATCH true payload data (or_intror eq_refl) V)
        as [_ [[items Ei] [ts Et]]].
      destruct Hmiss; congruence.
Qed.

Lemma recipe_create_amount_unbounded_witness :
  exists db', recipe_create_view 1 300 (Some 1) 6 "ghijkl" (sample_payload 1 1 1 (32000 + 1))
                sample_db = (201, [], db')
              /\ In (mkRecipeIngredient 6 1 (32000 + 1)) (recipe_ingredients db').
Proof.
  destruct (recipe_create_amount_unbounded 1 300 32000 1 6 "ghijkl" sample_db 1 1
              (le_n 1) ltac:(apply Nat.leb_le; reflexivity)
              ltac:(apply Nat.leb_le; reflexivity) ltac:(apply Nat.ltb_lt; reflexivity)
              eq_refl eq_refl) as [_ [_ H]].
  exact H.
Defined.

Lemma recipe_update_replaces_lists_witness :
  match recipe_update_view 1 300 (Some 1) PUT 5 (sample_payload 1 1 10 2) sample_db with
  | (st, _, db') =>
      st = 200
      /\ filter (fun ri => ri_recipe ri =? 5) (recipe_ingredients db') = [mkRecipeIngredient 5 1 2]
      /\ ~ In (5, 2) (recipe_tags db')
  end.
Proof.
  destruct (recipe_update_view 1 300 (Some 1) PUT 5 (sample_payload 1 1 10 2) sample_db)
    as [[st errs] db'] eqn:E.
  destruct (recipe_update_replaces_lists 1 300 1 PUT 5 (sample_payload 1 1 10 2) sample_db
              st errs db' (or_introl eq_refl) E) as [H _].
  assert (Hst : st = 200) by (vm_compute in E; congruence).
  destruct (H Hst) as [items [ts [Ei [Et [F1 [_ [Ft _]]]]]]].
  simpl in Ei, Et. injection Ei as <-. injection Et as <-.
  split; [exact Hst|]. split; [exact F1|].
  intro Hin. apply Ft in Hin. destruct Hin as [H2|[]]. discriminate.
Defined.

(** *** Short codes *)

Lemma b64_char_not_pad v : b64_char v <> "="%char.
Proof.
  unfold b64_char. generalize (N.to_nat (N.land v 63)) as n. intro n.
  do 64 (destruct n as [|n]; [discriminate|]). discriminate.
Qed.

Lemma rstrip_pad_six c1 c2 c3 c4 c5 c6 :
  c6 <> "="%char ->
  rstrip_pad (String c1 (String c2 (String c3 (String c4 (String c5 (String c6 "=="))))))
  = String c1 (String c2 (String c3 (String c4 (String c5 (String c6 EmptyString))))).
Proof.
  intro H. simpl. apply Ascii.eqb_neq in H. rewrite H. reflexivity.
Qed.

(** A drawn code has six characters; the sixth one encodes the two low bits
    of the last byte followed by four zero bits. *)
Lemma new_code_shape a b c e :
  exists x1 x2 x3 x4 x5,
    new_code (a, b, c, e)
    = String x1 (String x2 (String x3 (String x4 (String x5
        (String (b64_char (N.shiftl (N.land (Byte.to_N e) 3) 4)) EmptyString))))).
Proof.
  unfold new_code, token_urlsafe, draw_bytes. cbn [map urlsafe_b64encode].
  rewrite rstrip_pad_six by apply b64_char_not_pad.
  do 5 eexists; reflexivity.
Qed.

Lemma last_char_drawable e :
  In (b64_char (N.shiftl (N.land (Byte.to_N e) 3) 4)) ["A"; "Q"; "g"; "w"]%char.
Proof.
  assert (H : existsb (Ascii.eqb (b64_char (N.shiftl (N.land (Byte.to_N e) 3) 4)))
                      ["A"; "Q"; "g"; "w"]%char = true) by (destruct e; reflexivity).
  apply existsb_exists in H as [x [Hx Ex]]. apply Ascii.eqb_eq in Ex. rewrite Ex; exact Hx.
Qed.

Lemma new_code_drawable d :
  String.length (new_code d) = 6
  /\ In (String.get 5 (new_code d)) [Some "A"; Some "Q"; Some "g"; Some "w"]%char.
Proof.
  destruct d as [[[a b] c] e]. destruct (new_code_shape a b c e) as (x1 & x2 & x3 & x4 & x5 & ->).
  split; [reflexivity|]. simpl.
  destruct (last_char_drawable e) as [<-|[<-|[<-|[<-|[]]]]]; tauto.
Qed.

Lemma new_code_nonempty d : new_code d <> EmptyString.
Proof. intro H. pose proof (proj1 (new_code_drawable d)) as L. rewrite H in L. discriminate. Qed.

Lemma save_loop_some db draws fuel : forall k j c,
  save_loop db draws k fuel = Some (j, c) ->
  k <= j /\ c = new_code (draws j) /\ code_taken db c = false
  /\ (forall i, k <= i < j -> code_taken db (new_code (draws i)) = true).
Proof.
  induction fuel as [|fuel IH]; intros k j c H; simpl in H; [discriminate|].
  destruct (code_taken db (new_code (draws k))) eqn:T.
  - destruct (IH (S k) j c H) as (Hle & Hc & Ht & Hbefore).
    refine (conj _ (conj Hc (conj Ht _))); [lia|].
    intros i Hi. destruct (Nat.eq_dec i k) as [->|Hne]; [exact T|]. apply Hbefore; lia.
  - injection H as <- <-. refine (conj (le_n k) (conj eq_refl (conj T _))). intros i Hi; lia.
Qed.

Lemma save_loop_first_free db draws j : forall fuel k,
  k <= j -> j - k < fuel ->
  code_taken db (new_code (draws j)) = false ->
  (forall i, k <= i < j -> code_taken db (new_code (draws i)) = true) ->
  save_loop db draws k fuel = Some (j, new_code (draws j)).
Proof.
  induction fuel as [|fuel IH]; intros k Hk Hf Hj Hbefore; [lia|]. simpl.
  destruct (Nat.eq_dec k j) as [->|Hne]; [rewrite Hj; reflexivity|].
  rewrite Hbefore by lia. apply IH; auto; [lia | lia | intros i Hi; apply Hbefore; lia].
Qed.

Lemma save_loop_taken db draws : forall n k,
  (forall i, k <= i < k + n -> code_taken db (new_code (draws i)) = true) ->
  save_loop db draws k n = None.
Proof.
  induction n as [|n IH]; intros k H; simpl; auto.
  rewrite H by lia. apply IH. intros i Hi; apply H; lia.
Qed.

Lemma in_all_bytes a : In a all_bytes.
Proof.
  unfold all_bytes. apply in_flat_map. exists (Byte.to_nat a). split.
  - apply in_seq. pose proof (Byte.to_nat_bounded a). lia.
  - rewrite Byte.of_to_nat. left; reflexivity.
Qed.

Lemma in_all_draws d : In d all_draws.
Proof.
  destruct d as [[[a b] c] e]. unfold all_draws.
  apply in_flat_map; exists a; split; [apply in_all_bytes|].
  apply in_flat_map; exists b; split; [apply in_all_bytes|].
  apply in_flat_map; exists c; split; [apply in_all_bytes|].
  apply in_map; apply in_all_bytes.
Qed.

Lemma in_combine_seq {A} (l : list A) x : forall k,
  In x l -> exists n, In (n, x) (combine (seq k (length l)) l).
Proof.
  induction l as [|y l IH]; intros k H; [destruct H|].
  destruct H as [<-|H].
  - exists k; left; reflexivity.
  - destruct (IH (S k) H) as [n Hn]. exists n; right; exact Hn.
Qed.

Lemma all_drawable_taken d : code_taken all_drawable_codes_db (new_code d) = true.
Proof.
  destruct (in_combine_seq all_draws d 1 (in_all_draws d)) as [n Hn].
  apply existsb_exists. exists (mkRecipe n 1 "Рецепт" 10 (new_code d)). split.
  - apply (in_map (fun '(n, d) => mkRecipe n 1 "Рецепт" 10 (new_code d)) _ (n, d) Hn).
  - apply String.eqb_refl.
Qed.

Lemma code_taken_true db c :
  code_taken db c = true -> exists x, In x (recipes db) /\ short_code x = c.
Proof.
  unfold code_taken; intro H. apply existsb_exists in H as [x [Hx Ex]].
  apply String.eqb_eq in Ex. eauto.
Qed.

Lemma all_drawable_free : code_taken all_drawable_codes_db "AAAAAB" = false.
Proof.
  apply Bool.not_true_iff_false. intro H.
  apply code_taken_true in H as [x [Hx Ex]].
  apply in_map_iff in Hx as [[n d] [<- _]]. simpl in Ex.
  destruct (new_code_drawable d) as [_ Hd]. rewrite Ex in Hd. simpl in Hd.
  destruct Hd as [H1|[H1|[H1|[H1|[]]]]]; discriminate.
Qed.

(** [super_save] of a row with a non-empty code keeps the invariant. *)
Lemma existsb_false_forall {A} (f : A -> bool) l :
  existsb f l = false -> forall x, In x l -> f x = false.
Proof.
  intros H x Hx. destruct (f x) eqn:E; auto.
  assert (existsb f l = true) by (apply existsb_exists; eauto). congruence.
Qed.

Lemma nodup_codes_update (l : list Recipe) r :
  NoDup (map recipe_id l) -> NoDup (map short_code l) ->
  (forall x, In x l -> recipe_id x <> recipe_id r -> short_code x <> short_code r) ->
  NoDup (map short_code (map (fun x => if recipe_id x =? recipe_id r then r else x) l)).
Proof.
  induction l as [|x l IH]; intros Hid Hc Hr; simpl; [constructor|].
  inversion Hid as [|? ? Hxid Hid']; inversion Hc as [|? ? Hxc Hc']; subst.
  constructor; [|apply IH; auto; intros y Hy; apply Hr; right; exact Hy].
  rewrite map_map. intro Hin. apply in_map_iff in Hin as [y [Ey Hy]].
  assert (Hyx : recipe_id y <> recipe_id x)
    by (intro E; apply Hxid; rewrite <- E; apply in_map; exact Hy).
  destruct (Nat.eqb_spec (recipe_id x) (recipe_id r)) as [Ex|Ex];
  destruct (Nat.eqb_spec (recipe_id y) (recipe_id r)) as [Ey'|Ey'].
  - congruence.
  - apply (Hr y (or_intror Hy) Ey'). exact Ey.
  - apply (Hr x (or_introl eq_refl) Ex). symmetry; exact Ey.
  - apply Hxc. rewrite <- Ey. apply in_map; exact Hy.
Qed.

Lemma super_save_ok db r r' db' :
  codes_ok db -> short_code r <> EmptyString -> super_save db r = Saved r' db' ->
  codes_ok db' /\ r' = r /\ In r (recipes db')
  /\ (forall x, In x (recipes db) -> recipe_id x <> recipe_id r -> In x (recipes db')).
Proof.
  intros [Hne [Hid Hc]] Hr. unfold super_save.
  destruct (existsb _ (recipes db)) eqn:C; [discriminate|].
  assert (Hconf : forall x, In x (recipes db) -> recipe_id x <> recipe_id r ->
                            short_code x <> short_code r).
  { intros x Hx Hxr E. pose proof (existsb_false_forall _ _ C x Hx) as F. simpl in F.
    apply Nat.eqb_neq in Hxr. rewrite Hxr, E, String.eqb_refl in F. discriminate. }
  destruct (existsb (fun x => recipe_id x =? recipe_id r) (recipes db)) eqn:U;
    intro H; injection H as <- <-; unfold codes_ok; cbv beta iota delta [with_recipes with_recipe_rows recipes].
  - apply existsb_exists in U as [x0 [Hx0 Ex0]].
    refine (conj (conj _ (conj _ _)) (conj eq_refl (conj _ _))).
    + apply Forall_map. eapply Forall_impl; [|exact Hne].
      intros x Hx. destruct (recipe_id x =? recipe_id r); auto.
    + rewrite map_map. erewrite map_ext; [exact Hid|].
      intro x. destruct (Nat.eqb_spec (recipe_id x) (recipe_id r)); auto.
    + apply nodup_codes_update; auto.
    + apply in_map_iff. exists x0. rewrite Ex0. auto.
    + intros x Hx Hxr. apply in_map_iff. exists x.
      apply Nat.eqb_neq in Hxr. rewrite Hxr. auto.
  - pose proof (existsb_false_forall _ _ U) as Hnew.
    refine (conj (conj _ (conj _ _)) (conj eq_refl (conj _ _))).
    + apply Forall_app; auto.
    + rewrite map_app. apply NoDup_app; auto; [repeat constructor; intros []|].
      intros a Ha [<-|[]]. apply in_map_iff in Ha as [x [Ex Hx]].
      pose proof (Hnew x Hx) as F. cbv beta in F. rewrite Ex, Nat.eqb_refl in F. discriminate.
    + rewrite map_app. apply NoDup_app; auto; [repeat constructor; intros []|].
      intros a Ha [<-|[]]. apply in_map_iff in Ha as [x [Ex Hx]].
      apply (Hconf x Hx); auto. apply Nat.eqb_neq, Hnew, Hx.
    + apply in_or_app; right; left; reflexivity.
    + intros x Hx _. apply in_or_app; left; exact Hx.
Qed.

Lemma codes_ok_same_codes db db' :
  map recipe_id (recipes db') = map recipe_id (recipes db) ->
  map short_code (recipes db') = map short_code (recipes db) ->
  codes_ok db -> codes_ok db'.
Proof.
  intros Hi Hc [Hne [Hid Hcd]]. split; [|split; congruence].
  rewrite Forall_forall in *. intros x Hx.
  assert (H : In (short_code x) (map short_code (recipes db'))) by (apply in_map; exact Hx).
  rewrite Hc in H. apply in_map_iff in H as [y [Ey Hy]]. rewrite <- Ey. apply Hne, Hy.
Qed.

(** [RecipeWriteSerializer.update] keeps every id and every short code. *)
Lemma recipe_write_update_codes db pk data :
  map recipe_id (recipes (recipe_write_update db pk data)) = map recipe_id (recipes db)
  /\ map short_code (recipes (recipe_write_update db pk data)) = map short_code (recipes db).
Proof.
  cbv beta iota zeta delta [recipe_write_update with_recipe_rows recipes].
  rewrite !map_map. split; apply map_ext; intro r; destruct (recipe_id r =? pk); reflexivity.
Qed.

Lemma existsb_false_mono {A} (f g : A -> bool) l :
  existsb f l = false -> (forall x, g x = true -> f x = true) -> existsb g l = false.
Proof.
  intros H Hfg. apply Bool.not_true_iff_false. intro Hg.
  apply existsb_exists in Hg as [x [Hx Ex]].
  specialize (Hfg x Ex). rewrite (existsb_false_forall f l H x Hx) in Hfg. discriminate.
Qed.

(** [RecipeWriteSerializer.create] with a fresh id and a free non-empty code
    keeps the invariant. *)
Lemma create_codes_ok db user new_id code data :
  codes_ok db -> code <> EmptyString -> code_taken db code = false ->
  existsb (fun x => recipe_id x =? new_id) (recipes db) = false ->
  codes_ok (recipe_write_create db user new_id code data).
Proof.
  intros Hok Hc Ht Hid.
  pose (rnew := mkRecipe new_id user (opt_default EmptyString (p_name data))
                         (opt_default 0 (p_cooking_time data)) code).
  assert (E : super_save db rnew = Saved rnew (with_recipes db (recipes db ++ [rnew]))).
  { unfold super_save. cbn [recipe_id short_code rnew].
    rewrite (existsb_false_mono _ _ _ Ht); [rewrite Hid; reflexivity|].
    intros x Hx. apply andb_true_iff in Hx as [_ Hx]. exact Hx. }
  destruct (super_save_ok db rnew _ _ Hok Hc E) as [Hok' _]. exact Hok'.
Qed.

(** C2: over a recipe table whose codes are non-empty and unique (as the
    empty table is), every [Recipe.save] that completes leaves them so and
    stores the saved recipe with a non-empty code; a save of a recipe loaded
    from the table (with the serializer's fields set on it) keeps its code;
    the serializer's update keeps every code; and a create with the code the
    save loop drew keeps the invariant. *)
Theorem recipe_short_code_invariant db draws fuel :
  codes_ok db ->
  (forall r r' db', recipe_save db draws fuel r = Saved r' db' ->
     codes_ok db' /\ short_code r' <> EmptyString /\ In r' (recipes db')
     /\ (forall x, In x (recipes db) -> recipe_id x <> recipe_id r' -> In x (recipes db'))
     /\ (forall x data, In x (recipes db) -> r = update_fields data x ->
                       r' = r /\ short_code r' = short_code x))
  /\ (forall pk data, codes_ok (recipe_write_update db pk data)
       /\ map short_code (recipes (recipe_write_update db pk data)) = map short_code (recipes db))
  /\ (forall user new_id data j code, save_loop db draws 0 fuel = Some (j, code) ->
       existsb (fun x => recipe_id x =? new_id) (recipes db) = false ->
       codes_ok (recipe_write_create db user new_id code data)).
Proof.
  intro Hok. refine (conj _ (conj _ _)).
  - intros r r' db' H. unfold recipe_save in H.
    destruct (short_code r) as [|c s] eqn:Er.
    + destruct (save_loop db draws 0 fuel) as [[j code]|] eqn:L; [|discriminate].
      destruct (save_loop_some _ _ _ _ _ _ L) as (_ & Hc & Ht & _).
      assert (Hne : short_code (set_short_code r code) <> EmptyString)
        by (simpl; rewrite Hc; apply new_code_nonempty).
      destruct (super_save_ok _ _ _ _ Hok Hne H) as (Hok' & -> & Hin & Hkeep).
      refine (conj Hok' (conj Hne (conj Hin (conj Hkeep _)))).
      intros x data Hx ->. simpl in Er.
      destruct Hok as [Hall _]. rewrite Forall_forall in Hall.
      destruct (Hall x Hx Er).
    + assert (Hne : short_code r <> EmptyString) by (rewrite Er; discriminate).
      destruct (super_save_ok _ _ _ _ Hok Hne H) as (Hok' & -> & Hin & Hkeep).
      refine (conj Hok' (conj Hne (conj Hin (conj Hkeep _)))).
      intros x data _ ->. split; reflexivity.
  - intros pk data. destruct (recipe_write_update_codes db pk data) as [Hi Hc].
    split; [apply (codes_ok_same_codes db); auto | exact Hc].
  - intros user new_id data j code L Hid.
    destruct (save_loop_some _ _ _ _ _ _ L) as (_ & Hc & Ht & _).
    apply create_codes_ok; auto. rewrite Hc; apply new_code_nonempty.
Qed.

Lemma recipe_short_code_invariant_witness :
  match recipe_save sample_db (fun _ => (Byte.x00, Byte.x00, Byte.x00, Byte.x00)) 1
                    (mkRecipe 6 1 "Каша" 5 EmptyString) with
  | Saved r' db' => codes_ok db' /\ short_code r' <> EmptyString
  | _ => False
  end.
Proof.
  assert (Hok : codes_ok sample_db).
  { unfold codes_ok, sample_db; simpl.
    split; [repeat constructor; discriminate|]. split; repeat constructor; intros []. }
  destruct (recipe_save sample_db (fun _ => (Byte.x00, Byte.x00, Byte.x00, Byte.x00)) 1
                        (mkRecipe 6 1 "Каша" 5 EmptyString)) as [r' db'| |] eqn:E;
    try (vm_compute in E; discriminate).
  destruct (proj1 (recipe_short_code_invariant sample_db _ 1 Hok) _ r' db' E) as (H1 & H2 & _).
  split; assumption.
Defined.

(** C8 (as stated, refuted): the recipe table [all_drawable_codes_db] holds
    every code a draw can yield, yet the six-character code [AAAAAB] is free;
    the save loop never stops on it, whatever the draws. *)
Lemma short_code_loop_counterexample :
  code_taken all_drawable_codes_db "AAAAAB" = false /\ String.length "AAAAAB" = 6
  /\ forall draws fuel, save_loop all_drawable_codes_db draws 0 fuel = None.
Proof.
  refine (conj all_drawable_free (conj eq_refl _)).
  intros draws fuel. apply save_loop_taken. intros i _. apply all_drawable_taken.
Qed.

(** C8 (amended): the save loop has no retry cap. It stops at the first draw
    whose code no recipe has and returns that code, after any number of
    draws; while every draw collides it keeps drawing. A drawn code has six
    characters, the last one of [A], [Q], [g], [w] (2^32 of the 64^6 codes),
    so when every drawable code is taken the loop never stops. *)
Theorem save_loop_first_free_draw db draws :
  (forall fuel j c, save_loop db draws 0 fuel = Some (j, c) ->
     c = new_code (draws j) /\ code_taken db c = false
     /\ forall i, i < j -> code_taken db (new_code (draws i)) = true)
  /\ (forall j, code_taken db (new_code (draws j)) = false ->
       (forall i, i < j -> code_taken db (new_code (draws i)) = true) ->
       forall fuel, j < fuel -> save_loop db draws 0 fuel = Some (j, new_code (draws j)))
  /\ (forall n, (forall i, i < n -> code_taken db (new_code (draws i)) = true) ->
       save_loop db draws 0 n = None)
  /\ (forall d, String.length (new_code d) = 6
       /\ In (String.get 5 (new_code d)) [Some "A"; Some "Q"; Some "g"; Some "w"]%char)
  /\ ((forall d, code_taken db (new_code d) = true) ->
       forall fuel, save_loop db draws 0 fuel = None).
Proof.
  refine (conj _ (conj _ (conj _ (conj new_code_drawable _)))).
  - intros fuel j c L. destruct (save_loop_some _ _ _ _ _ _ L) as (_ & Hc & Ht & Hb).
    refine (conj Hc (conj Ht _)). intros i Hi; apply Hb; lia.
  - intros j Hj Hb fuel Hf. apply save_loop_first_free; auto; [lia | lia |].
    intros i Hi; apply Hb; lia.
  - intros n Hn. apply save_loop_taken. intros i Hi; apply Hn; lia.
  - intros Hall fuel. apply save_loop_taken. intros i _; apply Hall.
Qed.

(* ------------------------------------------------------------------------- *)
(** ** Recipe deletion *)

Lemma in_filter_neq {A} (f : A -> nat) (pk : nat) (l : list A) x :
  In x (filter (fun y => negb (f y =? pk)) l) <-> In x l /\ f x <> pk.
Proof. rewrite filter_In, negb_true_iff, Nat.eqb_neq; tauto. Qed.

Lemma find_filter_negb {A} (f : A -> bool) (l : list A) :
  find f (filter (fun x => negb (f x)) l) = None.
Proof.
  induction l as [|x l IH]; simpl; auto.
  destruct (f x) eqn:E; simpl; auto. rewrite E; auto.
Qed.

Lemma NoDup_map_filter {A B} (g : A -> B) (f : A -> bool) (l : list A) :
  NoDup (map g l) -> NoDup (map g (filter f l)).
Proof.
  induction l as [|x l IH]; simpl; intro H; auto.
  inversion H as [|? ? Hx Hl]; subst.
  destruct (f x); simpl; auto. constructor; auto.
  intro Hin; apply Hx. apply in_map_iff in Hin as (y & Hy & Hy').
  apply filter_In in Hy' as [Hy' _]. rewrite <- Hy; apply in_map; auto.
Qed.

Lemma codes_ok_delete_cascade db pk : codes_ok db -> codes_ok (recipe_delete_cascade db pk).
Proof.
  unfold codes_ok, recipe_delete_cascade; simpl. intros (HF & H1 & H2). split; [|split].
  - apply Forall_forall; intros r Hr; apply filter_In in Hr as [Hr _].
    eapply Forall_forall in HF; eauto.
  - apply NoDup_map_filter; auto.
  - apply NoDup_map_filter; auto.
Qed.

Lemma delete_cascade_rows db pk :
  let db' := recipe_delete_cascade db pk in
  find_recipe db' pk = None
  /\ (forall r, In r (recipes db') <-> In r (recipes db) /\ recipe_id r <> pk)
  /\ (forall rt, In rt (recipe_tags db') <-> In rt (recipe_tags db) /\ fst rt <> pk)
  /\ (forall ri, In ri (recipe_ingredients db') <->
                 In ri (recipe_ingredients db) /\ ri_recipe ri <> pk)
  /\ (forall ur, In ur (favorites db') <-> In ur (favorites db) /\ ur_recipe ur <> pk)
  /\ (forall ur, In ur (shopping_cart db') <-> In ur (shopping_cart db) /\ ur_recipe ur <> pk)
  /\ users db' = users db /\ tags db' = tags db /\ ingredients db' = ingredients db
  /\ follows db' = follows db.
Proof.
  unfold recipe_delete_cascade, find_recipe; simpl.
  refine (conj (find_filter_negb (fun r => recipe_id r =? pk) _) _).
  split; [intro; apply (in_filter_neq recipe_id pk)|].
  split; [intro; apply (in_filter_neq fst pk)|].
  split; [intro; apply (in_filter_neq ri_recipe pk)|].
  split; [intro; apply (in_filter_neq ur_recipe pk)|].
  split; [intro; apply (in_filter_neq ur_recipe pk)|].
  repeat split.
Qed.

(** Deleting a recipe (recipes/views.py, RecipeViewSet.destroy): the answer
    is 204 exactly when the requester is the author of an existing recipe,
    and any other answer leaves the database unchanged. After a 204 the recipe
    is gone, and so are exactly the tag links, ingredient rows, favourites and
    cart rows that referred to it; users, tags, ingredients and follows are
    untouched. Deletion keeps the short codes non-empty and unique. *)
Theorem recipe_destroy_cascade (request_user : option nat) (pk : nat) (db : DB) :
  let (st, db') := recipe_destroy_view request_user pk db in
  (st = 204 <-> exists user r, request_user = Some user /\ find_recipe db pk = Some r
                              /\ author r = user)
  /\ (st <> 204 -> db' = db)
  /\ (st = 204 ->
        find_recipe db' pk = None
        /\ (forall r, In r (recipes db') <-> In r (recipes db) /\ recipe_id r <> pk)
        /\ (forall rt, In rt (recipe_tags db') <-> In rt (recipe_tags db) /\ fst rt <> pk)
        /\ (forall ri, In ri (recipe_ingredients db') <->
                       In ri (recipe_ingredients db) /\ ri_recipe ri <> pk)
        /\ (forall ur, In ur (favorites db') <-> In ur (favorites db) /\ ur_recipe ur <> pk)
        /\ (forall ur, In ur (shopping_cart db') <->
                       In ur (shopping_cart db) /\ ur_recipe ur <> pk)
        /\ users db' = users db /\ tags db' = tags db /\ ingredients db' = ingredients db
        /\ follows db' = follows db)
  /\ (codes_ok db -> codes_ok db').
Proof.
  unfold recipe_destroy_view.
  destruct request_user as [user|].
  - destruct (find_recipe db pk) as [r|] eqn:F.
    + destruct (author r =? user) eqn:A; simpl.
      * apply Nat.eqb_eq in A.
        split; [split; intros; eauto; lia|].
        split; [congruence|].
        split; [intros _; apply delete_cascade_rows|apply codes_ok_delete_cascade].
      * split; [|split; [auto|split; [discriminate|auto]]].
        split; [discriminate|]. intros (u & r' & Hu & Hr & Ha).
        injection Hu as <-. injection Hr as <-.
        apply Nat.eqb_neq in A; contradiction.
    + split; [|split; [auto|split; [discriminate|auto]]].
      split; [discriminate|]. intros (u & r' & _ & Hr & _); discriminate.
  - split; [|split; [auto|split; [discriminate|auto]]].
    split; [discriminate|]. intros (u & r' & Hu & _); discriminate.
Qed.

(* ------------------------------------------------------------------------- *)
(** ** Read-side flags after the membership and follow actions *)

Lemma existsb_app_one {A} (f : A -> bool) (l : list A) x :
  existsb f (l ++ [x]) = existsb f l || f x.
Proof. rewrite existsb_app; simpl; rewrite orb_false_r; auto. Qed.

Lemma existsb_filter_negb {A} (f : A -> bool) (l : list A) :
  existsb f (filter (fun x => negb (f x)) l) = false.
Proof.
  induction l as [|x l IH]; simpl; auto.
  destruct (f x) eqn:E; simpl; auto. rewrite E; auto.
Qed.

Lemma existsb_filter_other {A} (f g : A -> bool) (l : list A) :
  (forall x, g x = true -> f x = false) ->
  existsb g (filter (fun x => negb (f x)) l) = existsb g l.
Proof.
  intro H; induction l as [|x l IH]; simpl; auto.
  destruct (g x) eqn:G.
  - rewrite (H x G); simpl; rewrite G; auto.
  - destruct (f x); simpl; rewrite ?G; auto.
Qed.

Lemma is_member_row_other user pk u o x :
  (u <> user \/ o <> pk) -> is_member_row u o x = true -> is_member_row user pk x = false.
Proof.
  unfold is_member_row; intros Hne H.
  apply andb_true_iff in H as [H1 H2]; apply Nat.eqb_eq in H1, H2; subst.
  destruct Hne as [Hne|Hne]; apply Nat.eqb_neq in Hne;
    [rewrite Hne | rewrite Hne, andb_false_r]; auto.
Qed.

Lemma membership_rows_other model model' db rows :
  model' <> model ->
  membership_rows model' (with_membership_rows model db rows) = membership_rows model' db.
Proof. destruct model, model'; simpl; congruence. Qed.

(** The recipe serializer's [is_favorited] and [is_in_shopping_cart] after the
    [favorite] and [shopping_cart] actions (recipes/views.py): after a 201
    POST the flag of that user and recipe turns from false to true, after a
    204 DELETE from true to false; the flags of every other user or recipe,
    and those of the other list, do not change. *)
Theorem membership_flags_follow_actions (model : MembershipModel) (user : nat)
  (method : Method) (pk : nat) (db : DB) :
  let (st, db') := RecipesViews.add_remove_relation model (Some user) method pk db in
  (st = 201 -> get_is_member model (Some user) db pk = false
               /\ get_is_member model (Some user) db' pk = true)
  /\ (st = 204 -> get_is_member model (Some user) db pk = true
                  /\ get_is_member model (Some user) db' pk = false)
  /\ (forall u o, (u <> user \/ o <> pk) ->
        get_is_member model (Some u) db' o = get_is_member model (Some u) db o)
  /\ (forall model' u o, model' <> model ->
        get_is_member model' u db' o = get_is_member model' u db o).
Proof.
  unfold RecipesViews.add_remove_relation, get_is_member.
  destruct (recipe_exists db pk); simpl;
    [|repeat split; intros; try discriminate; auto].
  destruct method; simpl; try (repeat split; intros; try discriminate; auto; fail).
  - destruct (member_exists model db user pk) eqn:M; simpl;
      [repeat split; intros; try discriminate; auto|].
    split; [intros _; split; [auto|apply member_exists_create]|].
    split; [discriminate|]. split.
    + intros u o Hne. unfold member_exists, member_create.
      rewrite membership_rows_with, existsb_app_one.
      destruct (is_member_row u o (mkUserRecipe user pk)) eqn:E;
        [|rewrite orb_false_r; auto].
      exfalso. pose proof (is_member_row_other user pk u o _ Hne E) as E'.
      unfold is_member_row in E'; simpl in E'; rewrite !Nat.eqb_refl in E'; discriminate.
    + intros model' u o Hm. destruct u as [u|]; auto.
      unfold member_exists, member_create; rewrite membership_rows_other; auto.
  - destruct (member_exists model db user pk) eqn:M; simpl;
      [|repeat split; intros; try discriminate; auto].
    split; [discriminate|]. split.
    + intros _; split; auto. unfold member_exists, member_delete; simpl.
      rewrite membership_rows_with. apply existsb_filter_negb.
    + split.
      * intros u o Hne. unfold member_exists, member_delete; simpl.
        rewrite membership_rows_with. apply existsb_filter_other.
        intro x; apply (is_member_row_other user pk u o x Hne).
      * intros model' u o Hm. destruct u as [u|]; auto.
        unfold member_exists, member_delete; simpl; rewrite membership_rows_other; auto.
Qed.

(* ------------------------------------------------------------------------- *)
(** ** The follow graph under subscribe and unsubscribe *)

Lemma is_follow_row_eq user author f :
  is_follow_row user author f = true -> f = mkFollow user author.
Proof.
  destruct f as [fu fa]; unfold is_follow_row; simpl; intro H.
  apply andb_true_iff in H as [H1 H2]; apply Nat.eqb_eq in H1, H2; subst; auto.
Qed.

Lemma is_follow_row_self user author : is_follow_row user author (mkFollow user author) = true.
Proof. unfold is_follow_row; simpl; rewrite !Nat.eqb_refl; auto. Qed.

Lemma NoDup_app_one {A} (l : list A) x : NoDup l -> ~ In x l -> NoDup (l ++ [x]).
Proof.
  induction l as [|y l IH]; simpl; intros H Hx.
  - constructor; [auto|constructor].
  - inversion H as [|? ? Hy Hl]; subst. constructor.
    + rewrite in_app_iff; simpl; intuition.
    + apply IH; auto.
Qed.

Lemma remove_first_follow_incl user author fs f :
  In f (remove_first_follow user author fs) -> In f fs.
Proof.
  induction fs as [|g fs IH]; simpl; auto.
  destruct (is_follow_row user author g); simpl; intuition.
Qed.

Lemma remove_first_follow_NoDup user author fs :
  NoDup fs -> NoDup (remove_first_follow user author fs).
Proof.
  induction fs as [|g fs IH]; simpl; intro H; auto.
  inversion H as [|? ? Hg Hfs]; subst.
  destruct (is_follow_row user author g); auto.
  constructor; auto. intro Hin; apply Hg; eapply remove_first_follow_incl; eauto.
Qed.

Lemma follow_absent_not_in db user author :
  follow_exists db user author = false -> ~ In (mkFollow user author) (follows db).
Proof.
  intros H Hin. pose proof (existsb_false_forall _ _ H _ Hin) as E.
  rewrite is_follow_row_self in E; discriminate.
Qed.

Lemma remove_first_follow_unique user author fs :
  NoDup fs -> existsb (is_follow_row user author) (remove_first_follow user author fs) = false.
Proof.
  induction fs as [|g fs IH]; simpl; intro H; auto.
  inversion H as [|? ? Hg Hfs]; subst.
  destruct (is_follow_row user author g) eqn:E; simpl.
  - apply is_follow_row_eq in E; subst g.
    destruct (existsb (is_follow_row user author) fs) eqn:X; auto.
    apply existsb_exists in X as (f & Hf & Ef). apply is_follow_row_eq in Ef; subst f.
    contradiction.
  - rewrite E, IH; auto.
Qed.

Lemma remove_first_follow_other user author u a fs :
  (u <> user \/ a <> author) ->
  existsb (is_follow_row u a) (remove_first_follow user author fs)
  = existsb (is_follow_row u a) fs.
Proof.
  intro Hne; induction fs as [|g fs IH]; simpl; auto.
  destruct (is_follow_row user author g) eqn:E; simpl.
  - apply is_follow_row_eq in E; subst g.
    replace (is_follow_row u a (mkFollow user author)) with false; auto.
    unfold is_follow_row; simpl.
    destruct Hne as [Hne|Hne]; apply Nat.eqb_neq in Hne;
      [rewrite (Nat.eqb_sym user u), Hne
      | rewrite (Nat.eqb_sym author a), Hne, andb_false_r]; auto.
  - rewrite IH; auto.
Qed.


(** users/views.py, UserViewSet.subscribe: whatever the request, the view
    never creates a second edge for a (user, author) pair nor an edge from a
    user to themself, so the [unique_follow] and [prevent_self_follow]
    constraints of the Follow table keep holding. *)
Theorem subscribe_keeps_follow_constraints (request_user : option nat) (method : Method)
  (pk : nat) (db : DB) (Hok : follows_ok db) :
  follows_ok (snd (UsersViews.subscribe request_user method pk db)).
Proof.
  destruct Hok as [Hnd Hself].
  unfold UsersViews.subscribe.
  destruct request_user as [user|]; [|split; auto].
  destruct (negb (user_exists db pk)); [split; auto|].
  destruct method; try (split; auto; fail).
  - destruct (user =? pk) eqn:S; [split; auto|].
    destruct (follow_exists db user pk) eqn:X; [split; auto|].
    unfold follows_ok, follow_create; simpl. split.
    + apply NoDup_app_one; auto. apply follow_absent_not_in; auto.
    + apply Forall_app; split; auto. constructor; [|constructor].
      simpl; apply Nat.eqb_neq; auto.
  - destruct (negb (follow_exists db user pk)); [split; auto|].
    unfold follows_ok; simpl. split.
    + apply remove_first_follow_NoDup; auto.
    + apply Forall_forall; intros f Hf. apply remove_first_follow_incl in Hf.
      eapply Forall_forall in Hself; eauto.
Qed.

(** The [is_subscribed] field of UserSerializer after a subscribe or an
    unsubscribe (users/views.py), on a Follow table that satisfies its
    constraints: after a 201 it turns from false to true for that requester
    and author, after a 204 from true to false; the flag of every other pair
    does not change. *)
Theorem subscribed_flag_follows_subscribe (user : nat) (method : Method) (pk : nat) (db : DB)
  (Hok : follows_ok db) :
  let (st, db') := UsersViews.subscribe (Some user) method pk db in
  (st = 201 -> get_is_subscribed (Some user) db pk = false
               /\ get_is_subscribed (Some user) db' pk = true)
  /\ (st = 204 -> get_is_subscribed (Some user) db pk = true
                  /\ get_is_subscribed (Some user) db' pk = false)
  /\ (forall u a, (u <> user \/ a <> pk) ->
        get_is_subscribed (Some u) db' a = get_is_subscribed (Some u) db a).
Proof.
  destruct Hok as [Hnd _].
  unfold UsersViews.subscribe, get_is_subscribed.
  destruct (negb (user_exists db pk)); [repeat split; intros; discriminate|].
  destruct method; try (repeat split; intros; discriminate).
  - destruct (user =? pk); [repeat split; intros; discriminate|].
    destruct (follow_exists db user pk) eqn:X; [repeat split; intros; discriminate|].
    split; [intros _; split; auto|split; [discriminate|]].
    + unfold follow_exists, follow_create; simpl.
      rewrite existsb_app_one, is_follow_row_self, orb_true_r; auto.
    + intros u a Hne. unfold follow_exists, follow_create; simpl.
      rewrite existsb_app_one.
      replace (is_follow_row u a (mkFollow user pk)) with false; [apply orb_false_r|].
      unfold is_follow_row; simpl.
      destruct Hne as [Hne|Hne]; apply Nat.eqb_neq in Hne;
        [rewrite (Nat.eqb_sym user u), Hne
        | rewrite (Nat.eqb_sym pk a), Hne, andb_false_r]; auto.
  - destruct (follow_exists db user pk) eqn:X; simpl; [|repeat split; intros; discriminate].
    split; [discriminate|split].
    + intros _; split; auto. unfold follow_exists; simpl.
      apply remove_first_follow_unique; auto.
    + intros u a Hne. unfold follow_exists; simpl. apply remove_first_follow_other; auto.
Qed.


(* ------------------------------------------------------------------------- *)
(** ** Subscriptions: the recipes of a followed author *)

(** FollowSerializer (users/serializers.py): [recipes] is refused for a
    negative [recipes_limit]; otherwise it is the first
    [min(recipes_limit, recipes_count)] recipes of the author in the table's
    order (3 when the parameter is absent), while [recipes_count] counts all
    the author's recipes. *)
Theorem follow_recipes_limit (db : DB) (recipes_limit : option Z) (a : nat) :
  let n := match recipes_limit with Some n => n | None => 3%Z end in
  ((n < 0)%Z -> get_recipes db recipes_limit a = None)
  /\ ((0 <= n)%Z ->
      exists rs rest,
        get_recipes db recipes_limit a = Some rs
        /\ author_recipes db a = rs ++ rest
        /\ length rs = Nat.min (Z.to_nat n) (get_recipes_count db a)
        /\ (forall r, In r rs -> In r (recipes db) /\ author r = a)).
Proof.
  unfold get_recipes, get_recipes_count. cbv zeta.
  set (n := match recipes_limit with Some n => n | None => 3%Z end).
  split.
  - intro H; apply Z.ltb_lt in H; rewrite H; auto.
  - intro H. assert (Hb : (n <? 0)%Z = false) by (apply Z.ltb_ge; auto). rewrite Hb.
    exists (firstn (Z.to_nat n) (author_recipes db a)),
           (skipn (Z.to_nat n) (author_recipes db a)).
    split; [auto|]. split; [symmetry; apply firstn_skipn|].
    split; [apply length_firstn|].
    intros r Hr.
    assert (Hin : In r (author_recipes db a)).
    { rewrite <- (firstn_skipn (Z.to_nat n) (author_recipes db a)).
      apply in_or_app; auto. }
    unfold author_recipes in Hin. apply filter_In in Hin as [H1 H2].
    apply Nat.eqb_eq in H2; auto.
Qed.

(* ------------------------------------------------------------------------- *)
(** ** Base64ImageField *)














(* ------------------------------------------------------------------------- *)
(** ** The load_ingredients command *)

Lemma existsb_is_pair n u ings :
  existsb (is_pair n u) ings = true <-> In (n, u) (ingredient_pairs ings).
Proof.
  unfold ingredient_pairs; rewrite existsb_exists, in_map_iff. split.
  - intros (i & Hi & E). unfold is_pair in E. apply andb_true_iff in E as [E1 E2].
    apply String.eqb_eq in E1, E2. exists i; subst; auto.
  - intros (i & E & Hi). injection E as E1 E2. exists i; split; auto.
    unfold is_pair; rewrite E1, E2, !String.eqb_refl; auto.
Qed.

Lemma ingredient_pairs_app l1 l2 :
  ingredient_pairs (l1 ++ l2) = ingredient_pairs l1 ++ ingredient_pairs l2.
Proof. apply map_app. Qed.

Lemma get_or_create_spec ings n u :
  let (ings', created) := get_or_create_ingredient ings n u in
  (exists new, ings' = ings ++ new /\ length new = (if created then 1 else 0))
  /\ In (n, u) (ingredient_pairs ings')
  /\ (NoDup (ingredient_pairs ings) -> NoDup (ingredient_pairs ings')).
Proof.
  unfold get_or_create_ingredient.
  destruct (existsb (is_pair n u) ings) eqn:E.
  - split; [exists []; rewrite app_nil_r; auto|].
    split; [apply existsb_is_pair; auto|auto].
  - split; [eexists; split; reflexivity|]. split.
    + rewrite ingredient_pairs_app; apply in_or_app; right; left; reflexivity.
    + intro H. rewrite ingredient_pairs_app. apply NoDup_app_one; auto.
      intro Hin. simpl in Hin. apply existsb_is_pair in Hin. congruence.
Qed.

Lemma row_loaded_app py_strip ings new row :
  row_loaded py_strip ings row -> row_loaded py_strip (ings ++ new) row.
Proof.
  intros (n & u & -> & H). exists n, u; split; auto.
  rewrite ingredient_pairs_app; apply in_or_app; auto.
Qed.

Lemma load_rows_loaded py_strip rows : forall ings c ings' c',
  load_rows py_strip rows ings c = Loaded ings' c' ->
  (exists new, ings' = ings ++ new /\ c' = c + length new)
  /\ Forall (row_loaded py_strip ings') rows
  /\ (NoDup (ingredient_pairs ings) -> NoDup (ingredient_pairs ings')).
Proof.
  induction rows as [|row rows IH]; intros ings c ings' c' L.
  - simpl in L; injection L as <- <-.
    split; [exists []; rewrite app_nil_r; split; [auto|simpl; lia]|auto].
  - destruct row as [|n [|u [|x row]]]; try discriminate.
    simpl in L.
    pose proof (get_or_create_spec ings (py_strip n) (py_strip u)) as G.
    destruct (get_or_create_ingredient ings (py_strip n) (py_strip u)) as [mid created].
    destruct G as ((new1 & -> & Hlen1) & Hin & Hnd).
    destruct (IH _ _ _ _ L) as ((new2 & -> & Hc) & Hrows & Hnd2).
    split; [|split].
    + exists (new1 ++ new2); split; [rewrite app_assoc; auto|].
      rewrite length_app; destruct created; simpl in *; lia.
    + constructor; auto. exists n, u; split; auto.
      rewrite ingredient_pairs_app; apply in_or_app; auto.
    + auto.
Qed.

Lemma load_rows_again py_strip rows : forall ings c,
  Forall (row_loaded py_strip ings) rows -> load_rows py_strip rows ings c = Loaded ings c.
Proof.
  induction rows as [|row rows IH]; intros ings c H; simpl; auto.
  inversion H as [|? ? (n & u & -> & Hin) Hrows]; subst.
  unfold get_or_create_ingredient.
  apply existsb_is_pair in Hin; rewrite Hin. apply IH; auto.
Qed.

Lemma load_rows_crash py_strip good bad rest :
  Forall (fun row => length row = 2) good -> length bad <> 2 ->
  forall ings c, exists ings' c',
    load_rows py_strip good ings c = Loaded ings' c'
    /\ load_rows py_strip (good ++ bad :: rest) ings c = Crashed ings'.
Proof.
  intros Hgood Hbad. induction Hgood as [|row good Hrow Hgood IH]; intros ings c.
  - exists ings, c; split; auto. simpl.
    destruct bad as [|n [|u [|x bad]]]; simpl in Hbad; auto; lia.
  - destruct row as [|n [|u [|x row]]]; simpl in Hrow; try lia.
    simpl. destruct (get_or_create_ingredient ings (py_strip n) (py_strip u)) as [mid created].
    apply IH.
Qed.

(** The load_ingredients command (recipes/management/commands), on a CSV
    file whose rows all have two fields and a table that satisfies its
    [unique_ingredient] constraint: it appends one row for each stripped
    (name, unit) pair not yet present, prints that number, keeps the
    constraint, and afterwards every pair of the file is in the table. Running
    it a second time creates nothing, prints 0 and leaves the table as it is. *)
Theorem load_ingredients_idempotent (py_strip : string -> string)
  (rows : list (list string)) (db : DB)
  (Huniq : NoDup (ingredient_pairs (ingredients db)))
  (Hrows : Forall (fun row => length row = 2) rows) :
  let (out, db') := load_ingredients_handle py_strip true rows db in
  exists new,
    ingredients db' = ingredients db ++ new
    /\ out = Some ("Загружено " ++ py_str_int (length new) ++ " ингредиентов")%string
    /\ NoDup (ingredient_pairs (ingredients db'))
    /\ Forall (fun row => exists n u, row = [n; u]
                 /\ In (py_strip n, py_strip u) (ingredient_pairs (ingredients db'))) rows
    /\ recipes db' = recipes db /\ recipe_ingredients db' = recipe_ingredients db
    /\ load_ingredients_handle py_strip true rows db'
       = (Some "Загружено 0 ингредиентов"%string, db').
Proof.
  destruct (load_rows_crash py_strip rows [] [] Hrows ltac:(discriminate)
              (ingredients db) 0) as (ings' & c' & L & _).
  unfold load_ingredients_handle; simpl negb; cbv iota. rewrite L.
  destruct (load_rows_loaded _ _ _ _ _ _ L) as ((new & -> & Hc) & Hall & Hnd).
  exists new. simpl. split; [auto|]. split; [rewrite Hc; auto|].
  split; [auto|]. split; [exact Hall|]. split; [auto|]. split; [auto|].
  rewrite load_rows_again; auto.
Qed.

(** The load_ingredients command: a row that does not have exactly two fields
    stops the command with [ValueError] before the final line is printed; the
    rows created before it stay, so the table ends as after loading only the
    rows that precede it. *)
Theorem load_ingredients_partial (py_strip : string -> string)
  (good : list (list string)) (bad : list string) (rest : list (list string)) (db : DB)
  (Hgood : Forall (fun row => length row = 2) good) (Hbad : length bad <> 2) :
  let (out, db') := load_ingredients_handle py_strip true (good ++ bad :: rest) db in
  out = None /\ db' = snd (load_ingredients_handle py_strip true good db).
Proof.
  destruct (load_rows_crash py_strip good bad rest Hgood Hbad (ingredients db) 0)
    as (ings' & c' & L1 & L2).
  unfold load_ingredients_handle; simpl negb; cbv iota. rewrite L1, L2. simpl; auto.
Qed.

(* ------------------------------------------------------------------------- *)
(** ** Registration *)

Section RegistrationProofs.

Variable py_strip py_lower : string -> string.
Variable email_valid username_valid : string -> bool.
Variable validate_password : string -> list string.
Variable normalize_username : string -> string.
Variables MAX_LENGTH_FIRSTNAME MAX_LENGTH_LASTNAME : nat.

Lemma char_field_inr vs v value :
  char_field py_strip vs v = inr value ->
  exists s, v = Some s /\ value = py_strip s /\ forall f, In f vs -> f value = [].
Proof.
  unfold char_field; destruct v as [s|]; [|discriminate].
  destruct (String.eqb (py_strip s) EmptyString); [discriminate|].
  destruct (flat_map (fun f => f (py_strip s)) vs) as [|x r] eqn:E; [|discriminate].
  intro H; injection H as <-. exists s; split; [auto|split; [auto|]].
  intros f Hf. destruct (f (py_strip s)) as [|y r'] eqn:F; auto.
  assert (Hy : In y (flat_map (fun f => f (py_strip s)) vs))
    by (apply in_flat_map; exists f; rewrite F; simpl; auto).
  rewrite E in Hy; contradiction.
Qed.

Lemma unique_errors_nil accs col value :
  unique_errors accs col value = [] -> forall a, In a accs -> col a <> value.
Proof.
  unfold unique_errors. destruct (existsb _ accs) eqn:E; [discriminate|].
  intros _ a Ha Hc. pose proof (existsb_false_forall _ _ E a Ha) as F; simpl in F.
  rewrite Hc, String.eqb_refl in F; discriminate.
Qed.

Lemma validate_username_inr t u :
  validate_username py_strip py_lower username_valid t = inr u -> u = py_lower (py_strip t).
Proof.
  unfold validate_username.
  destruct (existsb _ FORBIDDEN_NAMES); [discriminate|].
  destruct (username_valid _); [|discriminate]. intro H; injection H as <-; auto.
Qed.

(** Registration (users/serializers.py UserCreateSerializer, users/views.py
    UserViewSet.create): a request that passes validation has an e-mail and a
    stripped username that no user has exactly, but the row inserted carries
    the username lower-cased by [validate_username] (and normalised), and the
    e-mail with its domain lower-cased by [normalize_email]. When one of these
    stored forms already exists (e.g. [Bob] next to [bob]), the INSERT fails
    and the answer is 500 with no change, instead of a 400; otherwise it is
    201 with the new row appended. *)
Theorem user_create_unique_case (accs : list Account) (new_id : nat) (p : SignupPayload)
  (e u pw f l : string)
  (Hvalid : user_create_validate py_strip py_lower email_valid username_valid
              validate_password MAX_LENGTH_FIRSTNAME MAX_LENGTH_LASTNAME accs p
            = inr (e, u, pw, f, l)) :
  (forall a, In a accs -> acc_email a <> e)
  /\ (exists s, s_username p = Some s /\ u = py_lower (py_strip (py_strip s))
                /\ forall a, In a accs -> acc_username a <> py_strip s)
  /\ (fst (fst (user_create_view py_strip py_lower email_valid username_valid
                  validate_password normalize_username MAX_LENGTH_FIRSTNAME
                  MAX_LENGTH_LASTNAME accs new_id p)) = 500
      <-> exists a, In a accs /\ (acc_email a = normalize_email py_strip py_lower e
                                  \/ acc_username a = normalize_username u))
  /\ (let '(st, errs, accs') :=
        user_create_view py_strip py_lower email_valid username_valid validate_password
          normalize_username MAX_LENGTH_FIRSTNAME MAX_LENGTH_LASTNAME accs new_id p in
      errs = []
      /\ ((st = 500 /\ accs' = accs)
          \/ (st = 201 /\ accs' = accs ++ [mkAccount new_id (normalize_email py_strip py_lower e)
                                             (normalize_username u) f l]))).
Proof.
  assert (Hv := Hvalid).
  unfold user_create_validate in Hv.
  destruct (email_field py_strip email_valid accs (s_email p)) as [er1|e0] eqn:HE;
  destruct (username_field py_strip py_lower username_valid accs (s_username p)) as [er2|u0] eqn:HU;
  destruct (password_field py_strip validate_password (s_password p)) as [er3|pw0];
  destruct (first_name_field py_strip MAX_LENGTH_FIRSTNAME (s_first_name p)) as [er4|f0];
  destruct (last_name_field py_strip MAX_LENGTH_LASTNAME (s_last_name p)) as [er5|l0];
  try discriminate.
  injection Hv as <- <- <- <- <-.
  split; [|split; [|split]].
  - unfold email_field in HE. apply char_field_inr in HE as (s & _ & -> & Hvs).
    apply (unique_errors_nil accs acc_email). apply Hvs; simpl; auto.
  - unfold username_field in HU.
    destruct (char_field py_strip _ (s_username p)) as [|t] eqn:HC; [discriminate|].
    apply validate_username_inr in HU as ->.
    apply char_field_inr in HC as (s & Hs & -> & Hvs).
    exists s; split; [auto|split; [auto|]].
    apply (unique_errors_nil accs acc_username). apply Hvs; simpl; auto.
  - unfold user_create_view; rewrite Hvalid. unfold create_user.
    destruct (existsb _ accs) eqn:X; simpl.
    + split; [intros _|auto]. apply existsb_exists in X as (a & Ha & Ea).
      exists a; split; auto. apply orb_true_iff in Ea as [E|E]; apply String.eqb_eq in E; auto.
    + split; [discriminate|]. intros (a & Ha & Ea).
      pose proof (existsb_false_forall _ _ X a Ha) as F; simpl in F.
      apply orb_false_iff in F as [F1 F2].
      destruct Ea as [Ea|Ea]; rewrite Ea, String.eqb_refl in *; discriminate.
  - unfold user_create_view; rewrite Hvalid. unfold create_user.
    destruct (existsb _ accs); simpl; auto.
Qed.

Lemma username_field_forbidden accs s :
  In (py_lower (py_strip (py_strip s))) FORBIDDEN_NAMES ->
  exists msgs, username_field py_strip py_lower username_valid accs (Some s) = inl msgs.
Proof.
  intro Hf. unfold username_field, char_field.
  destruct (String.eqb (py_strip s) EmptyString); [eauto|].
  destruct (flat_map _ _); [|eauto].
  unfold validate_username.
  replace (existsb (String.eqb (py_lower (py_strip (py_strip s)))) FORBIDDEN_NAMES) with true;
    [eauto|].
  symmetry; apply existsb_exists; exists (py_lower (py_strip (py_strip s))).
  split; [auto|apply String.eqb_refl].
Qed.

(** Registration (users/serializers.py, UsernameValidationMixin): a username
    that, stripped and lower-cased, is one of [me], [admin], [api], [auth]
    (such as [ADMIN] or [ Me ]) is always answered 400 with an error under
    [username], and no user is created. *)
Theorem user_create_forbidden_username (accs : list Account) (new_id : nat)
  (p : SignupPayload) (s : string)
  (Hs : s_username p = Some s)
  (Hf : In (py_lower (py_strip (py_strip s))) FORBIDDEN_NAMES) :
  let '(st, errs, accs') :=
    user_create_view py_strip py_lower email_valid username_valid validate_password
      normalize_username MAX_LENGTH_FIRSTNAME MAX_LENGTH_LASTNAME accs new_id p in
  st = 400 /\ accs' = accs /\ exists msgs, In ("username"%string, msgs) errs.
Proof.
  destruct (username_field_forbidden accs s Hf) as (msgs & Hu).
  unfold user_create_view, user_create_validate. rewrite Hs, Hu.
  destruct (email_field py_strip email_valid accs (s_email p));
  destruct (password_field py_strip validate_password (s_password p));
  destruct (first_name_field py_strip MAX_LENGTH_FIRSTNAME (s_first_name p));
  destruct (last_name_field py_strip MAX_LENGTH_LASTNAME (s_last_name p));
  (split; [reflexivity|split; [reflexivity|exists msgs]]);
  simpl; auto.
Qed.

End RegistrationProofs.

(* ------------------------------------------------------------------------- *)
(** ** Deletion and the shopping lists *)

Lemma flat_map_ext_in {A B} (f g : A -> list B) (l : list A) :
  (forall x, In x l -> f x = g x) -> flat_map f l = flat_map g l.
Proof.
  induction l as [|x l IH]; simpl; intro H; auto.
  rewrite H, IH; auto.
Qed.

Lemma recipe_ris_delete db pk r :
  r <> pk -> recipe_ris (recipe_delete_cascade db pk) r = recipe_ris db r.
Proof.
  intro Hr. unfold recipe_ris, recipe_delete_cascade; simpl.
  rewrite filter_filter_andb. apply filter_ext_eq; intro ri.
  destruct (Nat.eqb_spec (ri_recipe ri) r) as [->|_]; [|apply andb_false_r].
  rewrite (proj2 (Nat.eqb_neq r pk) Hr); reflexivity.
Qed.

Lemma cart_join_rows_delete db pk user :
  cart_join_rows (recipe_delete_cascade db pk) user
  = cart_join_rows (with_membership_rows ShoppingCartModel db
                      (filter (fun ur => negb (ur_recipe ur =? pk)) (shopping_cart db))) user.
Proof.
  unfold cart_join_rows, user_cart.
  change (shopping_cart (recipe_delete_cascade db pk))
    with (filter (fun ur => negb (ur_recipe ur =? pk)) (shopping_cart db)).
  change (shopping_cart (with_membership_rows ShoppingCartModel db
                           (filter (fun ur => negb (ur_recipe ur =? pk)) (shopping_cart db))))
    with (filter (fun ur => negb (ur_recipe ur =? pk)) (shopping_cart db)).
  apply flat_map_ext_in. intros sc Hsc.
  apply filter_In in Hsc as [Hsc _]. apply (in_filter_neq ur_recipe pk) in Hsc as [_ Hne].
  rewrite recipe_ris_delete by auto. reflexivity.
Qed.

(** Deleting a recipe (recipes/views.py, RecipeViewSet.destroy) and the
    shopping-list download: after a 204, every user's shopping list is the one
    the download would give had the recipe only been taken out of every cart;
    the recipe's ingredients no longer count anywhere. *)
Theorem recipe_destroy_shopping_lists (request_user : option nat) (pk : nat) (db : DB) :
  let (st, db') := recipe_destroy_view request_user pk db in
  st = 204 ->
  forall user,
    RecipesViews.download_shopping_cart db' (Some user)
    = RecipesViews.download_shopping_cart
        (with_membership_rows ShoppingCartModel db
           (filter (fun ur => negb (ur_recipe ur =? pk)) (shopping_cart db))) (Some user).
Proof.
  unfold recipe_destroy_view.
  destruct request_user as [u|]; [|discriminate].
  destruct (find_recipe db pk) as [r|]; [|discriminate].
  destruct (negb (author r =? u)); [discriminate|].
  intros _ user. unfold RecipesViews.download_shopping_cart, shopping_cart_ingredients.
  rewrite cart_join_rows_delete; reflexivity.
Qed.

(* ------------------------------------------------------------------------- *)
(** ** Instances *)

Lemma sample_follow_db_ok : follows_ok sample_follow_db.
Proof.
  split.
  - constructor; [simpl; tauto|constructor].
  - constructor; [simpl; discriminate|constructor].
Qed.

Lemma subscribe_keeps_follow_constraints_witness :
  follows_ok sample_follow_db
  /\ follows_ok (snd (UsersViews.subscribe (Some 1) POST 3 sample_follow_db)).
Proof.
  split; [exact sample_follow_db_ok|].
  apply (subscribe_keeps_follow_constraints (Some 1) POST 3 sample_follow_db sample_follow_db_ok).
Defined.

Lemma subscribed_flag_follows_subscribe_witness :
  follows_ok sample_follow_db
  /\ get_is_subscribed (Some 1) sample_follow_db 2 = true
  /\ get_is_subscribed (Some 1) (snd (UsersViews.subscribe (Some 1) DELETE 2 sample_follow_db)) 2
     = false.
Proof.
  split; [exact sample_follow_db_ok|].
  pose proof (subscribed_flag_follows_subscribe 1 DELETE 2 sample_follow_db sample_follow_db_ok)
    as T.
  destruct (UsersViews.subscribe (Some 1) DELETE 2 sample_follow_db) as [st db'] eqn:E.
  assert (Hst : st = 204) by (vm_compute in E; congruence).
  simpl. apply (proj1 (proj2 T) Hst).
Defined.




Lemma load_ingredients_idempotent_witness :
  NoDup (ingredient_pairs (ingredients sample_db))
  /\ Forall (fun row => length row = 2) [["соль"; "г"]; ["перец"; "г"]]%string
  /\ let (out, db') := load_ingredients_handle (fun s => s) true
                         [["соль"; "г"]; ["перец"; "г"]]%string sample_db in
     exists new,
       ingredients db' = ingredients sample_db ++ new
       /\ out = Some ("Загружено " ++ py_str_int (length new) ++ " ингредиентов")%string
       /\ NoDup (ingredient_pairs (ingredients db'))
       /\ Forall (fun row => exists n u, row = [n; u]
                    /\ In (n, u) (ingredient_pairs (ingredients db')))
                 [["соль"; "г"]; ["перец"; "г"]]%string
       /\ recipes db' = recipes sample_db
       /\ recipe_ingredients db' = recipe_ingredients sample_db
       /\ load_ingredients_handle (fun s => s) true [["соль"; "г"]; ["перец"; "г"]]%string db'
          = (Some "Загружено 0 ингредиентов"%string, db').
Proof.
  assert (Hu : NoDup (ingredient_pairs (ingredients sample_db))).
  { constructor; [simpl; intros [H|[]]; discriminate|constructor; [simpl; tauto|constructor]]. }
  assert (Hr : Forall (fun row => length row = 2) [["соль"; "г"]; ["перец"; "г"]]%string).
  { repeat constructor. }
  split; [exact Hu|]. split; [exact Hr|].
  exact (load_ingredients_idempotent (fun s => s) _ sample_db Hu Hr).
Defined.

Lemma load_ingredients_partial_witness :
  Forall (fun row => length row = 2) [["перец"; "г"]]%string
  /\ length ["соль"; "г"; "7"]%string <> 2
  /\ let (out, db') := load_ingredients_handle (fun s => s) true
                         (List.app [["перец"; "г"]]%string
                                   (["соль"; "г"; "7"]%string :: [["мука"; "г"]]%string))
                         sample_db in
     out = None
     /\ db' = snd (load_ingredients_handle (fun s => s) true [["перец"; "г"]]%string sample_db).
Proof.
  assert (Hg : Forall (fun row => length row = 2) [["перец"; "г"]]%string) by repeat constructor.
  assert (Hb : length ["соль"; "г"; "7"]%string <> 2) by discriminate.
  split; [exact Hg|]. split; [exact Hb|].
  exact (load_ingredients_partial (fun s => s) [["перец"; "г"]]%string ["соль"; "г"; "7"]%string
           [["мука"; "г"]]%string sample_db Hg Hb).
Defined.

Lemma user_create_unique_case_witness :
  user_create_validate (fun s => s) ascii_lower (fun _ => true) (fun _ => true) (fun _ => [])
    150 150 sample_accounts sample_signup
  = inr ("robert@example.com", "bob", "s3cret-Pa55", "Robert", "Smith")%string
  /\ fst (fst (user_create_view (fun s => s) ascii_lower (fun _ => true) (fun _ => true)
                 (fun _ => []) (fun s => s) 150 150 sample_accounts 2 sample_signup)) = 500.
Proof.
  assert (Hv : user_create_validate (fun s => s) ascii_lower (fun _ => true) (fun _ => true)
                 (fun _ => []) 150 150 sample_accounts sample_signup
               = inr ("robert@example.com", "bob", "s3cret-Pa55", "Robert", "Smith")%string)
    by reflexivity.
  split; [exact Hv|].
  pose proof (user_create_unique_case (fun s => s) ascii_lower (fun _ => true) (fun _ => true)
                (fun _ => []) (fun s => s) 150 150 sample_accounts 2 sample_signup
                _ _ _ _ _ Hv) as T.
  apply (proj2 (proj1 (proj2 (proj2 T)))).
  exists (mkAccount 1 "bob@example.com" "bob" "Bob" "Smith"); split; [left; reflexivity|].
  right; reflexivity.
Defined.

Lemma user_create_forbidden_username_witness :
  s_username (mkSignupPayload (Some "admin@example.com"%string) (Some "ADMIN"%string)
                (Some "s3cret-Pa55"%string) (Some "Ann"%string) (Some "Lee"%string))
  = Some "ADMIN"%string
  /\ In (ascii_lower "ADMIN") FORBIDDEN_NAMES
  /\ fst (fst (user_create_view (fun s => s) ascii_lower (fun _ => true) (fun _ => true)
                 (fun _ => []) (fun s => s) 150 150 sample_accounts 2
                 (mkSignupPayload (Some "admin@example.com"%string) (Some "ADMIN"%string)
                    (Some "s3cret-Pa55"%string) (Some "Ann"%string) (Some "Lee"%string))))
     = 400.
Proof.
  assert (Hf : In (ascii_lower "ADMIN") FORBIDDEN_NAMES) by (simpl; tauto).
  split; [reflexivity|]. split; [exact Hf|].
  pose proof (user_create_forbidden_username (fun s => s) ascii_lower (fun _ => true)
                (fun _ => true) (fun _ => []) (fun s => s) 150 150 sample_accounts 2
                (mkSignupPayload (Some "admin@example.com"%string) (Some "ADMIN"%string)
                   (Some "s3cret-Pa55"%string) (Some "Ann"%string) (Some "Lee"%string))
                "ADMIN" eq_refl Hf) as T.
  destruct (user_create_view _ _ _ _ _ _ _ _ _ _ _) as [[st errs] accs'].
  exact (proj1 T).
Defined.
